(** * RTMPy: handshake, event codec, frame codec and stream dispatch

    A shallow embedding of the RTMPy sources

      - [rtmpy/client.py]              (module [Client])
      - [rtmpy/rtmp/event.py]          (module [Event])
      - [rtmpy/rtmp/codec/__init__.py] (module [Codec])
      - [rtmpy/protocol/stream.py]     (module [Stream])

    Python objects are records, mutation is explicit state passing,
    exceptions and fired deferreds are values of [result].  The first part
    of the file holds the model, the second part the properties. *)

From Stdlib Require Import ZArith List Lia Bool.
From Stdlib Require Import Strings.Byte.
From stdpp Require Import base option list gmap strings.

Local Open Scope Z_scope.

(** ** Python exceptions and results *)

(** The exception classes that the modelled code raises or catches.
    [DecodeError], [TrailingDataError], [EncodeError] and [UnknownEventType]
    are the classes of [rtmpy.rtmp.event]; [CodecDecodeError] is
    [rtmpy.rtmp.codec.DecodeError]. *)
Inductive exn : Type :=
  | EOFError
  | IOError
  | KeyError
  | TypeError
  | ValueError
  | OverflowError
  | RuntimeError
  | AttributeError
  | NameError
  | DecodeError
  | TrailingDataError
  | EncodeError
  | UnknownEventType
  | CodecDecodeError
  | AMFError.

#[global] Instance exn_eq_dec : EqDecision exn.
Proof. solve_decision. Defined.

(** The exception classes by which a buffer reports a read that runs
    short: [ChannelContext.getData] catches both of them around its read. *)
Definition short_read (e : exn) : bool :=
  match e with
  | EOFError | IOError => true
  | _ => false
  end.

(** A computation that returns or raises; also the outcome of a deferred
    that has fired. *)
Inductive result (A : Type) : Type :=
  | Ok (a : A)
  | Raise (e : exn).
Arguments Ok {A} a.
Arguments Raise {A} e.

Definition bind {A B} (r : result A) (k : A -> result B) : result B :=
  match r with
  | Ok a => k a
  | Raise e => Raise e
  end.

Notation "'do' x <- r ; k" := (bind r (fun x => k))
  (at level 10, x pattern, r at level 100, k at level 200).

(** ** Bytes *)

#[global] Instance byte_eq_dec : EqDecision byte := Byte.byte_eq_dec.

Definition Z_of_byte (b : byte) : Z := Z.of_N (Byte.to_N b).

Definition byte_of_Z (z : Z) : byte :=
  match Byte.of_N (Z.to_N (z mod 256)) with
  | Some b => b
  | None => x00
  end.

(** ** Byte buffer *)

Module Buffer.

(** Modelled from the spec: [rtmpy.util.BufferedByteStream] is not among
    the sources.  Section 3 describes it as an ordered sequence of bytes
    with a read cursor; a read of [n] bytes that cannot be served leaves
    the cursor where it was and reports a short read; [consume] drops the
    bytes before the cursor and rebases the cursor to 0.  Numeric fields
    are big-endian (section 6). *)
Record BufferedByteStream : Type := mkBuffer {
  bdata : list byte;
  bpos : nat
}.

Definition empty : BufferedByteStream := mkBuffer [] 0.

Definition of_bytes (body : list byte) : BufferedByteStream := mkBuffer body 0.

(** [len(buffer)]: the total number of bytes held, whatever the cursor. *)
Definition len (b : BufferedByteStream) : nat := length (bdata b).

Definition tell (b : BufferedByteStream) : nat := bpos b.

Definition remaining (b : BufferedByteStream) : nat := length (bdata b) - bpos b.

Definition at_eof (b : BufferedByteStream) : bool := Nat.leb (length (bdata b)) (bpos b).

Definition seek (pos : nat) (b : BufferedByteStream) : BufferedByteStream :=
  mkBuffer (bdata b) pos.

(** [seek(0, 2)] *)
Definition seek_end (b : BufferedByteStream) : BufferedByteStream :=
  mkBuffer (bdata b) (length (bdata b)).

Definition getvalue (b : BufferedByteStream) : list byte := bdata b.

(** [read(n)] *)
Definition read (n : nat) (b : BufferedByteStream)
  : result (list byte * BufferedByteStream) :=
  if Nat.ltb (remaining b) n then Raise EOFError
  else Ok (take n (drop (bpos b) (bdata b)), mkBuffer (bdata b) (bpos b + n)).

(** [read()]: everything from the cursor to the tail. *)
Definition read_all (b : BufferedByteStream) : list byte * BufferedByteStream :=
  (drop (bpos b) (bdata b), mkBuffer (bdata b) (Nat.max (bpos b) (length (bdata b)))).

(** [write(data)]: at the cursor, overwriting what is there. *)
Definition write (data : list byte) (b : BufferedByteStream) : BufferedByteStream :=
  mkBuffer (take (bpos b) (bdata b) ++ data ++ drop (bpos b + length data) (bdata b))
           (bpos b + length data).

(** [append(data)]: at the tail, the cursor stays. *)
Definition append (data : list byte) (b : BufferedByteStream) : BufferedByteStream :=
  mkBuffer (bdata b ++ data) (bpos b).

(** The cursor sits at the tail of the buffer, where an encoder writes. *)
Definition at_tail (b : BufferedByteStream) : Prop := bpos b = length (bdata b).

Definition consume (b : BufferedByteStream) : BufferedByteStream :=
  mkBuffer (drop (bpos b) (bdata b)) 0.

Definition truncate0 (b : BufferedByteStream) : BufferedByteStream := empty.

(** Big-endian integers. *)
Definition be_value (bs : list byte) : Z :=
  fold_left (fun acc b => acc * 256 + Z_of_byte b) bs 0.

Fixpoint be_bytes (n : nat) (z : Z) : list byte :=
  match n with
  | O => []
  | S k => be_bytes k (z / 256) ++ [byte_of_Z z]
  end.

Definition read_unsigned (n : nat) (b : BufferedByteStream)
  : result (Z * BufferedByteStream) :=
  do (bs, b') <- read n b; Ok (be_value bs, b').

Definition read_signed (n : nat) (b : BufferedByteStream)
  : result (Z * BufferedByteStream) :=
  do (bs, b') <- read n b;
  let u := be_value bs in
  let m := 2 ^ (8 * Z.of_nat n) in
  Ok (if Z.ltb u (m / 2) then u else u - m, b').

(** [read_uchar] and [read_ulong] are the unsigned accessors of 1 and 4
    bytes, [read_short] and [read_long] the signed ones of 2 and 4 bytes
    (two's complement). *)
Definition read_uchar := read_unsigned 1.
Definition read_short := read_signed 2.
Definition read_ulong := read_unsigned 4.
Definition read_long := read_signed 4.

(** A value of [None] is the Python [None], which the packing routines
    refuse with [TypeError]; an integer out of range is an
    [OverflowError]. *)
Definition write_int (n : nat) (lo hi : Z) (v : option Z) (b : BufferedByteStream)
  : result BufferedByteStream :=
  match v with
  | None => Raise TypeError
  | Some z =>
      if Z.leb lo z && Z.leb z hi
      then Ok (write (be_bytes n (z mod 2 ^ (8 * Z.of_nat n))) b)
      else Raise OverflowError
  end.

Definition write_uchar := write_int 1 0 255.
Definition write_short := write_int 2 (-32768) 32767.
Definition write_ulong := write_int 4 0 4294967295.
Definition write_long := write_int 4 (-2147483648) 2147483647.

End Buffer.

(** ** The client side of the handshake ([rtmpy/client.py]) *)

Module Client.
Import Buffer.

(** Modelled from the spec: [rtmp.HEADER_BYTE] and [rtmp.HANDSHAKE_LENGTH]
    are defined in [rtmpy/rtmp/__init__.py], which is not among the
    sources; section 4.G gives the version byte 0x03 and payloads of 1536
    bytes. *)
Definition HEADER_BYTE : list byte := [x03].
Definition HANDSHAKE_LENGTH : nat := 1536.

Inductive ProtocolEvent : Type :=
  | HANDSHAKE_FAILURE (reason : string)
  | HANDSHAKE_SUCCESS.

Inductive ProtocolState : Type :=
  | HANDSHAKE
  | STREAM
  | OTHER.

(** [transport] collects the byte strings handed to [transport.write],
    [dispatched] the events handed to [dispatch], oldest first. *)
Record RTMPClientProtocol : Type := mkClient {
  state : ProtocolState;
  buffer : BufferedByteStream;
  my_handshake : list byte;
  received_handshake : option (list byte);
  transport : list (list byte);
  connection_lost : bool;
  dispatched : list ProtocolEvent
}.

Definition set_buffer (b : BufferedByteStream) (p : RTMPClientProtocol) :=
  mkClient (state p) b (my_handshake p) (received_handshake p) (transport p)
           (connection_lost p) (dispatched p).

Definition dispatch (e : ProtocolEvent) (p : RTMPClientProtocol) :=
  mkClient (state p) (buffer p) (my_handshake p) (received_handshake p) (transport p)
           (connection_lost p) (dispatched p ++ [e]).

Definition transport_write (bs : list byte) (p : RTMPClientProtocol) :=
  mkClient (state p) (buffer p) (my_handshake p) (received_handshake p)
           (transport p ++ [bs]) (connection_lost p) (dispatched p).

Definition set_received (bs : list byte) (p : RTMPClientProtocol) :=
  mkClient (state p) (buffer p) (my_handshake p) (Some bs) (transport p)
           (connection_lost p) (dispatched p).

(** Modelled from the spec: [_consumeBuffer] belongs to the base protocol
    class, which is not among the sources; it is the byte buffer's
    [consume], which keeps the leftover bytes for the decoder. *)
Definition _consumeBuffer (p : RTMPClientProtocol) := set_buffer (consume (buffer p)) p.

(** [generate_handshake] draws 1536 random bytes; the bytes drawn are the
    argument.  The base class, which is not among the sources, puts the
    protocol in the [HANDSHAKE] state with an empty buffer. *)
Definition connectionMade (generated : list byte) : RTMPClientProtocol :=
  let p := mkClient HANDSHAKE empty generated None [] false [] in
  transport_write (my_handshake p) (transport_write HEADER_BYTE p).

Definition decodeHandshake (p : RTMPClientProtocol) : result RTMPClientProtocol :=
  if Nat.ltb (len (buffer p)) 1 then Ok p
  else
    do (hd, b1) <- read 1 (buffer p);
    let p := set_buffer b1 p in
    if negb (bool_decide (hd = HEADER_BYTE)) then
      Ok (dispatch (HANDSHAKE_FAILURE "Invalid header byte received") p)
    else if Nat.ltb (len (buffer p)) (HANDSHAKE_LENGTH * 2 + 1) then Ok p
    else
      do (peer, b2) <- read HANDSHAKE_LENGTH (buffer p);
      let p := set_received peer (set_buffer b2 p) in
      do (echo, b3) <- read HANDSHAKE_LENGTH (buffer p);
      let p := set_buffer b3 p in
      if negb (bool_decide (echo = my_handshake p)) then
        Ok (dispatch (HANDSHAKE_FAILURE "Handshake mismatch") p)
      else
        let p := _consumeBuffer p in
        let p := transport_write peer p in
        Ok (dispatch HANDSHAKE_SUCCESS p).

(** [RTMPClientProtocol.dataReceived].  In the [STREAM] state the method
    of the base class is called on the class with the data alone
    ([rtmp.RTMPBaseProtocol.dataReceived(data)], no [self]): the call of an
    unbound method on an object that is not an instance of the class raises
    [TypeError]. *)
Definition dataReceived (data : list byte) (p : RTMPClientProtocol)
  : result RTMPClientProtocol :=
  let p := set_buffer (seek 0 (write data (seek_end (buffer p)))) p in
  match state p with
  | HANDSHAKE => decodeHandshake p
  | STREAM => Raise TypeError
  | OTHER =>
      Ok (mkClient (state p) (buffer p) (my_handshake p) (received_handshake p)
                   (transport p) true (dispatched p))
  end.

End Client.

(** ** Typed events ([rtmpy/rtmp/event.py]) *)

Module Event.
Import Buffer.

Definition FRAME_SIZE : Z := 0x01.
Definition BYTES_READ : Z := 0x03.
Definition CONTROL : Z := 0x04.
Definition DOWNSTREAM_BANDWIDTH : Z := 0x05.
Definition UPSTREAM_BANDWIDTH : Z := 0x06.
Definition AUDIO_DATA : Z := 0x07.
Definition VIDEO_DATA : Z := 0x08.
Definition FLEX_SHARED_OBJECT : Z := 0x10.
Definition FLEX_MESSAGE : Z := 0x11.
Definition NOTIFY : Z := 0x12.
Definition SHARED_OBJECT : Z := 0x13.
Definition INVOKE : Z := 0x14.
Definition FLV_DATA : Z := 0x16.

(** The external AMF codec (PyAMF), as the interface the event codec uses:
    [writeElement] gives the bytes that the encoder appends to its stream,
    [readElement] reads one element at the cursor of the stream. *)
Class AMFCodec : Type := {
  amf_value : Type;
  writeElement : amf_value -> result (list byte);
  readElement : BufferedByteStream -> result (amf_value * BufferedByteStream)
}.

(** The classes of the type map. *)
Inductive event_class : Type :=
  | FrameSize_class
  | BytesRead_class
  | ControlEvent_class
  | DownstreamBandwidth_class
  | UpstreamBandwidth_class
  | Notify_class
  | Invoke_class
  | AudioData_class
  | VideoData_class.

#[global] Instance event_class_eq_dec : EqDecision event_class.
Proof. solve_decision. Defined.

(** [ControlEvent.UNDEFINED] *)
Definition UNDEFINED : Z := -1.
Definition PING : Z := 6.
Definition PONG : Z := 7.

(** Type map. *)
Definition TYPE_MAP : gmap Z event_class :=
  list_to_map
    [ (FRAME_SIZE, FrameSize_class);
      (BYTES_READ, BytesRead_class);
      (CONTROL, ControlEvent_class);
      (DOWNSTREAM_BANDWIDTH, DownstreamBandwidth_class);
      (UPSTREAM_BANDWIDTH, UpstreamBandwidth_class);
      (NOTIFY, Notify_class);
      (INVOKE, Invoke_class);
      (AUDIO_DATA, AudioData_class);
      (VIDEO_DATA, VideoData_class) ].

(** [get_type_class] *)
Definition get_type_class (datatype : Z) : result event_class :=
  match TYPE_MAP !! datatype with
  | Some kls => Ok kls
  | None => Raise UnknownEventType
  end.

(** The search of [encode] through [TYPE_MAP.iteritems()]. *)
Definition datatype_of (kls : event_class) : option Z :=
  fst <$> List.find (fun tc => bool_decide (snd tc = kls)) (map_to_list TYPE_MAP).

(** [except TypeError: raise EncodeError(...)] *)
Definition type_error_is_encode_error {A} (r : result A) : result A :=
  match r with
  | Raise TypeError => Raise EncodeError
  | _ => r
  end.

Section WithAMF.
Context {amf : AMFCodec}.

(** Event instances.  An integer attribute is [None] while it is unset. *)
Inductive event : Type :=
  | FrameSize (size : option Z)
  | BytesRead (bytes : option Z)
  | ControlEvent (type value1 value2 value3 : option Z)
  | DownstreamBandwidth (bandwidth : option Z)
  | UpstreamBandwidth (bandwidth extra : option Z)
  | Notify (name id : amf_value) (argv : list amf_value)
  | Invoke (name id : amf_value) (argv : list amf_value)
  | AudioData (data : option (list byte))
  | VideoData (data : option (list byte)).

(** [ControlEvent.__init__] with its defaults for the values. *)
Definition new_ControlEvent (type : option Z) : event :=
  ControlEvent type (Some 0) (Some UNDEFINED) (Some UNDEFINED).

(** [event.__class__] *)
Definition class_of (e : event) : event_class :=
  match e with
  | FrameSize _ => FrameSize_class
  | BytesRead _ => BytesRead_class
  | ControlEvent _ _ _ _ => ControlEvent_class
  | DownstreamBandwidth _ => DownstreamBandwidth_class
  | UpstreamBandwidth _ _ => UpstreamBandwidth_class
  | Notify _ _ _ => Notify_class
  | Invoke _ _ _ => Invoke_class
  | AudioData _ => AudioData_class
  | VideoData _ => VideoData_class
  end.

(** [while not buf.at_eof(): self.argv.append(decoder.readElement())].
    A decoder that returned an element without moving the cursor would keep
    the Python loop spinning; the model gives up after [fuel] rounds, and
    [decode_event] starts it with one round more than there are bytes. *)
Fixpoint read_argv (fuel : nat) (buf : BufferedByteStream)
  : result (list amf_value * BufferedByteStream) :=
  if at_eof buf then Ok ([], buf)
  else
    match fuel with
    | O => Raise AMFError
    | S fuel' =>
        do (a, buf1) <- readElement buf;
        do (rest, buf2) <- read_argv fuel' buf1;
        Ok (a :: rest, buf2)
    end.

(** The [decode] method of each class, on a fresh instance of the class. *)
Definition decode_event (kls : event_class) (buf : BufferedByteStream)
  : result (event * BufferedByteStream) :=
  match kls with
  | FrameSize_class =>
      do (size, buf) <- read_ulong buf; Ok (FrameSize (Some size), buf)
  | BytesRead_class =>
      do (bytes, buf) <- read_ulong buf; Ok (BytesRead (Some bytes), buf)
  | ControlEvent_class =>
      do (type, buf) <- read_short buf;
      do (value1, buf) <- read_long buf;
      do (value2, buf) <- read_long buf;
      do (value3, buf) <- read_long buf;
      Ok (ControlEvent (Some type) (Some value1) (Some value2) (Some value3), buf)
  | DownstreamBandwidth_class =>
      do (bandwidth, buf) <- read_ulong buf;
      Ok (DownstreamBandwidth (Some bandwidth), buf)
  | UpstreamBandwidth_class =>
      do (bandwidth, buf) <- read_ulong buf;
      do (extra, buf) <- read_uchar buf;
      Ok (UpstreamBandwidth (Some bandwidth) (Some extra), buf)
  | Notify_class =>
      do (name, buf) <- readElement buf;
      do (id, buf) <- readElement buf;
      do (argv, buf) <- read_argv (S (remaining buf)) buf;
      Ok (Notify name id argv, buf)
  | Invoke_class =>
      do (name, buf) <- readElement buf;
      do (id, buf) <- readElement buf;
      do (argv, buf) <- read_argv (S (remaining buf)) buf;
      Ok (Invoke name id argv, buf)
  | AudioData_class =>
      let (data, buf) := read_all buf in Ok (AudioData (Some data), buf)
  | VideoData_class =>
      let (data, buf) := read_all buf in Ok (VideoData (Some data), buf)
  end.

Fixpoint write_elements (es : list amf_value) (buf : BufferedByteStream)
  : result BufferedByteStream :=
  match es with
  | [] => Ok buf
  | e :: es' =>
      do bs <- writeElement e;
      write_elements es' (write bs buf)
  end.

(** The [encode] method of each class. *)
Definition encode_event (e : event) (buf : BufferedByteStream)
  : result BufferedByteStream :=
  match e with
  | FrameSize size =>
      if bool_decide (size = None) then Raise EncodeError
      else type_error_is_encode_error (write_ulong size buf)
  | BytesRead bytes =>
      if bool_decide (bytes = None) then Raise EncodeError
      else type_error_is_encode_error (write_ulong bytes buf)
  | ControlEvent type value1 value2 value3 =>
      if bool_decide (type = None) then Raise EncodeError
      else
        do buf <- type_error_is_encode_error (write_short type buf);
        do buf <- type_error_is_encode_error (write_long value1 buf);
        do buf <- type_error_is_encode_error (write_long value2 buf);
        type_error_is_encode_error (write_long value3 buf)
  | DownstreamBandwidth bandwidth =>
      if bool_decide (bandwidth = None) then Raise EncodeError
      else type_error_is_encode_error (write_ulong bandwidth buf)
  | UpstreamBandwidth bandwidth extra =>
      if bool_decide (bandwidth = None) then Raise EncodeError
      else if bool_decide (extra = None) then Raise EncodeError
      else
        do buf <- type_error_is_encode_error (write_ulong bandwidth buf);
        type_error_is_encode_error (write_uchar extra buf)
  | Notify name id argv | Invoke name id argv =>
      do buf <- write_elements [name; id] buf;
      write_elements argv buf
  | AudioData data | VideoData data =>
      match data with
      | None => Raise EncodeError
      | Some bytes => Ok (write bytes buf)
      end
  end.

(** [decode(datatype, body)]: the outcome of the deferred it returns. *)
Definition decode (datatype : Z) (body : list byte) : result event :=
  match TYPE_MAP !! datatype with
  | None => Raise DecodeError
  | Some kls =>
      let buf := of_bytes body in
      do (e, buf) <- decode_event kls buf;
      if negb (at_eof buf) then Raise TrailingDataError else Ok e
  end.

(** [encode(event)]: the outcome of the deferred it returns. *)
Definition encode (e : event) : result (Z * list byte) :=
  match datatype_of (class_of e) with
  | None => Raise UnknownEventType
  | Some datatype =>
      let body := empty in
      do body <- encode_event e body;
      Ok (datatype, getvalue body)
  end.

End WithAMF.

Arguments event : clear implicits.

(** What the event codec expects of the AMF codec for a round trip: an
    element that was written is read back, up to the codec's own
    normalization [amf_norm], wherever its bytes sit in a stream, and
    every element takes at least one byte. *)
Class AMFLaws (amf : AMFCodec) (amf_norm : amf_value -> amf_value) : Prop := {
  readElement_writeElement :
    forall (v : amf_value) (bs pre post : list byte),
      writeElement v = Ok bs ->
      readElement (mkBuffer (pre ++ bs ++ post) (length pre))
      = Ok (amf_norm v, mkBuffer (pre ++ bs ++ post) (length pre + length bs));
  writeElement_nonempty :
    forall (v : amf_value) (bs : list byte), writeElement v = Ok bs -> bs <> []
}.

(** An integer attribute that is set and within the bounds of its wire
    format. *)
Definition in_range (lo hi : Z) (v : option Z) : Prop :=
  match v with
  | Some z => lo <= z <= hi
  | None => False
  end.

(** The encodable domain of an event: every attribute is set, the integers
    fit their wire formats and the AMF codec accepts the elements. *)
Definition in_domain {amf : AMFCodec} (e : event amf) : Prop :=
  match e with
  | FrameSize size => in_range 0 4294967295 size
  | BytesRead bytes => in_range 0 4294967295 bytes
  | ControlEvent type value1 value2 value3 =>
      in_range (-32768) 32767 type /\
      in_range (-2147483648) 2147483647 value1 /\
      in_range (-2147483648) 2147483647 value2 /\
      in_range (-2147483648) 2147483647 value3
  | DownstreamBandwidth bandwidth => in_range 0 4294967295 bandwidth
  | UpstreamBandwidth bandwidth extra =>
      in_range 0 4294967295 bandwidth /\ in_range 0 255 extra
  | Notify name id argv | Invoke name id argv =>
      Forall (fun v => exists bs, writeElement v = Ok bs) (name :: id :: argv)
  | AudioData data | VideoData data => data <> None
  end.

(** The event that a round trip is expected to give: the AMF elements are
    normalized, everything else is as it was. *)
Definition normalize {amf : AMFCodec} (amf_norm : amf_value -> amf_value)
    (e : event amf) : event amf :=
  match e with
  | Notify name id argv => Notify (amf_norm name) (amf_norm id) (map amf_norm argv)
  | Invoke name id argv => Invoke (amf_norm name) (amf_norm id) (map amf_norm argv)
  | _ => e
  end.

(** A one-byte codec to run the event codec on: an element is a byte and
    is written as itself. *)
Definition byte_codec : AMFCodec := {|
  amf_value := byte;
  writeElement := fun v => Ok [v];
  readElement := fun buf =>
    do (bs, buf) <- read 1 buf;
    match bs with
    | [v] => Ok (v, buf)
    | _ => Raise AMFError
    end
|}.

(** The call that the [dispatch] method of an event makes on its
    listener. *)
Inductive ListenerCall {amf : AMFCodec} : Type :=
  | call_onFrameSize (size : option Z)
  | call_onBytesRead (bytes : option Z)
  | call_onControlMessage (e : event amf)
  | call_onDownstreamBandwidth (bandwidth : option Z)
  | call_onUpstreamBandwidth (bandwidth extra : option Z)
  | call_onNotify (e : event amf)
  | call_onInvoke (e : event amf)
  | call_onAudioData (data : option (list byte))
  | call_onVideoData (data : option (list byte)).

(** The [dispatch] method of each class. *)
Definition dispatch {amf : AMFCodec} (e : event amf) : ListenerCall :=
  match e with
  | FrameSize size => call_onFrameSize size
  | BytesRead bytes => call_onBytesRead bytes
  | ControlEvent _ _ _ _ => call_onControlMessage e
  | DownstreamBandwidth bandwidth => call_onDownstreamBandwidth bandwidth
  | UpstreamBandwidth bandwidth extra => call_onUpstreamBandwidth bandwidth extra
  | Notify _ _ _ => call_onNotify e
  | Invoke _ _ _ => call_onInvoke e
  | AudioData data => call_onAudioData data
  | VideoData data => call_onVideoData data
  end.

(** The number of bytes that the [decode] method of a class reads, for the
    classes that read a fixed number. *)
Definition body_size (kls : event_class) : option nat :=
  match kls with
  | FrameSize_class | BytesRead_class | DownstreamBandwidth_class => Some 4%nat
  | ControlEvent_class => Some 14%nat
  | UpstreamBandwidth_class => Some 5%nat
  | Notify_class | Invoke_class | AudioData_class | VideoData_class => None
  end.

(** The classes whose bodies are AMF elements. *)
Definition is_amf_class (kls : event_class) : bool :=
  match kls with
  | Notify_class | Invoke_class => true
  | _ => false
  end.

End Event.

(** ** Frame codec ([rtmpy/rtmp/codec/__init__.py]) *)

Module Codec.
Import Buffer.

(** Modelled from the spec: the header class is declared in
    [rtmpy/rtmp/interfaces.py], which is not among the sources; section 3
    gives the fields of a header in absolute form. *)
Record Header : Type := mkHeader {
  channelId : Z;
  timestamp : Z;
  bodyLength : Z;
  datatype : Z;
  streamId : Z
}.

(** The header codec ([rtmpy/rtmp/codec/header.py]) is not among the
    sources; the encoder uses it through this interface.  A relative header
    is what [diffHeaders] returns; [absoluteHeader] is an absolute header
    where a relative one is expected. *)
Class HeaderCodec : Type := {
  RelativeHeader : Type;
  absoluteHeader : Header -> RelativeHeader;
  diffHeaders : Header -> Header -> RelativeHeader;
  encodeHeader : BufferedByteStream -> RelativeHeader -> BufferedByteStream
}.

(** Modelled from the spec: the channel class is defined in
    [rtmpy/rtmp/__init__.py], which is not among the sources.  Sections 3
    and 4.C give its assembly state: the current header, the body
    assembled so far, the bytes still to come and the count of complete
    frames.  [delivered] collects the bodies handed to the consumer
    callback. *)
Record Channel : Type := mkChannel {
  header : Header;
  bodyBuffer : list byte;
  bodyRemaining : nat;
  frames : nat;
  delivered : list (list byte)
}.

(** The bytes of the current message received so far. *)
Definition bodyReceived (c : Channel) : nat := length (bodyBuffer c).

(** Modelled from the spec: [Channel.write] appends the bytes to the body;
    [frames] goes up by one for every chunk that the bytes complete, a
    chunk being [frameSize] bytes or what is left of the body if that is
    less; when nothing remains the body is handed to the consumer and the
    body buffer is reset.  The decoder never writes more bytes than
    remain. *)
Definition Channel_write (frameSize : nat) (data : list byte) (c : Channel) : Channel :=
  let received := (bodyReceived c + length data)%nat in
  let remaining := (bodyRemaining c - length data)%nat in
  let full := (received / frameSize - bodyReceived c / frameSize)%nat in
  let last :=
    if Nat.eqb remaining 0 && negb (Nat.eqb (received mod frameSize) 0) then 1%nat else 0%nat in
  let frames := (frames c + full + last)%nat in
  if Nat.eqb remaining 0
  then mkChannel (header c) [] remaining frames (delivered c ++ [bodyBuffer c ++ data])
  else mkChannel (header c) (bodyBuffer c ++ data) remaining frames (delivered c).

(** *** Decoder *)

(** The decoder with the part of its channel manager that it reads: the
    frame size and the channels, by channel id.  [currentChannel] refers to
    a channel of the manager by its id; [running] is the state of the
    looping job. *)
Record Decoder : Type := mkDecoder {
  dbuffer : BufferedByteStream;
  currentChannel : option Z;
  dchannels : gmap Z Channel;
  dframeSize : nat;
  drunning : bool
}.

(** [BaseCodec.pause] *)
Definition Decoder_pause (d : Decoder) : Decoder :=
  mkDecoder (dbuffer d) (currentChannel d) (dchannels d) (dframeSize d) false.

(** [Decoder.getBytesAvailableForChannel] *)
Definition getBytesAvailableForChannel (d : Decoder) (channel : Channel) : nat :=
  Nat.min (Nat.min (remaining (dbuffer d)) (bodyRemaining channel)) (dframeSize d).

(** [Decoder.readFrame].  A pin on an id that the manager does not know
    cannot arise in the code, where the pin is the channel object itself. *)
Definition readFrame (d : Decoder) : result Decoder :=
  match currentChannel d with
  | None => Raise CodecDecodeError
  | Some cid =>
      match dchannels d !! cid with
      | None => Raise KeyError
      | Some channel =>
          let available := getBytesAvailableForChannel d channel in
          let frames0 := frames channel in
          if Nat.eqb available 0 then Ok d
          else
            do (bytes, buf) <- read available (dbuffer d);
            let channel := Channel_write (dframeSize d) bytes channel in
            let channels := <[cid := channel]> (dchannels d) in
            if negb (Nat.eqb (frames channel) frames0) then
              Ok (mkDecoder buf None channels (dframeSize d) (drunning d))
            else if Nat.eqb (bodyRemaining channel) 0 then
              Ok (mkDecoder buf None channels (dframeSize d) (drunning d))
            else
              Ok (mkDecoder buf (Some cid) channels (dframeSize d) (drunning d))
      end
  end.

(** [Decoder.canContinue] *)
Definition canContinue (minBytes : nat) (d : Decoder) : bool * Decoder :=
  let remaining := remaining (dbuffer d) in
  let d := if Nat.ltb remaining minBytes || Nat.eqb remaining 0
           then Decoder_pause d else d in
  (Nat.leb minBytes remaining, d).

(** The number of bytes that a step takes from the decoder's buffer. *)
Definition drained (before after : Decoder) : nat :=
  (tell (dbuffer after) - tell (dbuffer before))%nat.

(** *** Encoder *)

(** Modelled from the spec: the scheduler implements an interface of
    [rtmpy/rtmp/interfaces.py] and is not among the sources.  Section 4.E:
    it holds the active channels and by default serves them round-robin. *)
Record Scheduler : Type := mkScheduler {
  activeChannels : list Z
}.

Definition Scheduler_activateChannel (c : Z) (s : Scheduler) : Scheduler :=
  if bool_decide (c ∈ activeChannels s) then s
  else mkScheduler (activeChannels s ++ [c]).

Definition Scheduler_deactivateChannel (c : Z) (s : Scheduler) : Scheduler :=
  mkScheduler (filter (fun x => x <> c) (activeChannels s)).

Definition Scheduler_getNextChannel (s : Scheduler) : option Z * Scheduler :=
  match activeChannels s with
  | [] => (None, s)
  | c :: rest => (Some c, mkScheduler (rest ++ [c]))
  end.

Section WithHeaderCodec.
Context {hc : HeaderCodec}.

(** [ChannelContext]: [channel] is the channel of the context, of which
    the encoder reads the header and [bodyRemaining]; [lastHeader] is the
    attribute [header]. *)
Record ChannelContext : Type := mkContext {
  channel : Channel;
  buffer : BufferedByteStream;
  active : bool;
  lastHeader : option Header
}.

(** The encoder; the contexts are keyed by the id of their channel,
    [consumer] collects the byte strings written to the consumer. *)
Record Encoder : Type := mkEncoder {
  channelContext : gmap Z ChannelContext;
  currentContext : option Z;
  ebuffer : BufferedByteStream;
  scheduler : Scheduler;
  consumer : list (list byte);
  eframeSize : nat;
  erunning : bool
}.

Definition set_context (cid : Z) (ctx : ChannelContext) (e : Encoder) : Encoder :=
  mkEncoder (<[cid := ctx]> (channelContext e)) (currentContext e) (ebuffer e)
            (scheduler e) (consumer e) (eframeSize e) (erunning e).

Definition set_scheduler (s : Scheduler) (e : Encoder) : Encoder :=
  mkEncoder (channelContext e) (currentContext e) (ebuffer e) s (consumer e)
            (eframeSize e) (erunning e).

Definition set_ebuffer (b : BufferedByteStream) (e : Encoder) : Encoder :=
  mkEncoder (channelContext e) (currentContext e) b (scheduler e) (consumer e)
            (eframeSize e) (erunning e).

(** [BaseCodec.pause] *)
Definition Encoder_pause (e : Encoder) : Encoder :=
  mkEncoder (channelContext e) (currentContext e) (ebuffer e) (scheduler e)
            (consumer e) (eframeSize e) false.

(** [Encoder.activateChannel] *)
Definition activateChannel (cid : Z) (e : Encoder) : result Encoder :=
  match channelContext e !! cid with
  | None => Raise RuntimeError
  | Some _ => Ok (set_scheduler (Scheduler_activateChannel cid (scheduler e)) e)
  end.

(** [Encoder.deactivateChannel] *)
Definition deactivateChannel (cid : Z) (e : Encoder) : result Encoder :=
  match channelContext e !! cid with
  | None => Raise RuntimeError
  | Some _ => Ok (set_scheduler (Scheduler_deactivateChannel cid (scheduler e)) e)
  end.

(** [ChannelContext.write] *)
Definition ChannelContext_write (cid : Z) (data : list byte) (e : Encoder)
  : result Encoder :=
  match channelContext e !! cid with
  | None => Raise KeyError
  | Some ctx =>
      let ctx := mkContext (channel ctx) (append data (buffer ctx)) (active ctx)
                           (lastHeader ctx) in
      let e := set_context cid ctx e in
      if negb (active ctx) then
        do e <- activateChannel cid e;
        Ok (set_context cid (mkContext (channel ctx) (buffer ctx) true (lastHeader ctx)) e)
      else Ok e
  end.

(** [ChannelContext.getData]: the data, or [None]. *)
Definition getData (cid : Z) (length : nat) (e : Encoder)
  : result (option (list byte) * Encoder) :=
  match channelContext e !! cid with
  | None => Raise KeyError
  | Some ctx =>
      let pos := tell (buffer ctx) in
      do (data, buf) <-
        match read length (buffer ctx) with
        | Ok (data, buf) => Ok (Some data, buf)
        | Raise EOFError | Raise IOError => Ok (None, seek pos (buffer ctx))
        | Raise e => Raise e
        end;
      let ctx := mkContext (channel ctx) buf (active ctx) (lastHeader ctx) in
      let e := set_context cid ctx e in
      if Nat.eqb (len (buffer ctx)) 0 || bool_decide (data = None) then
        do e <- deactivateChannel cid e;
        Ok (data, set_context cid (mkContext (channel ctx) (buffer ctx) false (lastHeader ctx)) e)
      else
        Ok (data, set_context cid (mkContext (channel ctx) (consume (buffer ctx)) (active ctx)
                                             (lastHeader ctx)) e)
  end.

(** [ChannelContext.getRelativeHeader] *)
Definition getRelativeHeader (ctx : ChannelContext) : RelativeHeader :=
  match lastHeader ctx with
  | None => absoluteHeader (header (channel ctx))
  | Some h => diffHeaders h (header (channel ctx))
  end.

(** [Encoder.getMinimumFrameSize] *)
Definition getMinimumFrameSize (e : Encoder) (channel : Channel) : result nat :=
  let available := Nat.min (bodyRemaining channel) (eframeSize e) in
  if Nat.ltb available 1 then Raise RuntimeError else Ok available.

(** [Encoder.writeFrame] *)
Definition writeFrame (e : Encoder) : result Encoder :=
  match currentContext e with
  | None => Ok e
  | Some cid =>
      match channelContext e !! cid with
      | None => Raise KeyError
      | Some context =>
          do size <- getMinimumFrameSize e (channel context);
          do (data, e) <- getData cid size e;
          match data, channelContext e !! cid with
          | None, _ => Ok e
          | Some _, None => Raise KeyError
          | Some data, Some context =>
              let relativeHeader := getRelativeHeader context in
              let context := mkContext (channel context) (buffer context) (active context)
                                       (Some (header (channel context))) in
              let e := set_context cid context e in
              let buf := encodeHeader (ebuffer e) relativeHeader in
              Ok (set_ebuffer (write data buf) e)
          end
      end
  end.

(** [Encoder.encode]: one tick of the encoder. *)
Definition encode (e : Encoder) : result Encoder :=
  let (next, s) := Scheduler_getNextChannel (scheduler e) in
  let e := set_scheduler s e in
  match next with
  | None => Ok (Encoder_pause e)
  | Some cid =>
      match channelContext e !! cid with
      | None => Raise KeyError
      | Some _ =>
          let e := mkEncoder (channelContext e) (Some cid) (ebuffer e) (scheduler e)
                             (consumer e) (eframeSize e) (erunning e) in
          do e <- writeFrame e;
          if Nat.ltb 0 (len (ebuffer e)) then
            Ok (mkEncoder (channelContext e) (currentContext e) (truncate0 (ebuffer e))
                          (scheduler e) (consumer e ++ [getvalue (ebuffer e)])
                          (eframeSize e) (erunning e))
          else Ok e
      end
  end.

End WithHeaderCodec.

(** A header codec to run the encoder on: a relative header is the new
    absolute header, written as the byte of its channel id. *)
Definition plain_header_codec : HeaderCodec := {|
  RelativeHeader := Header;
  absoluteHeader := fun h => h;
  diffHeaders := fun _ h => h;
  encodeHeader := fun buf h => write [byte_of_Z (channelId h)] buf
|}.

(** *** The decoder's tick *)

(** The collaborators of the decoder's tick that are not among the
    sources: [decodeHeader] of the header codec, which returns the header
    and the number of bytes that it read from the cursor on or raises, and
    the channel that the manager's [getChannel] returns for the header's
    channel id (the channel it has, if any) once [setHeader] has been
    called on it. *)
Class DecoderEnv : Type := {
  decodeHeader : BufferedByteStream -> result (Header * nat);
  openChannel : Header -> option Channel -> Channel
}.

Definition set_dbuffer (b : BufferedByteStream) (d : Decoder) : Decoder :=
  mkDecoder b (currentChannel d) (dchannels d) (dframeSize d) (drunning d).

(** [Decoder.dataReceived] *)
Definition Decoder_dataReceived (data : list byte) (d : Decoder) : Decoder :=
  set_dbuffer (write data (seek_end (dbuffer d))) d.

Section WithDecoderEnv.
Context {env : DecoderEnv}.

(** [Decoder.readHeader] *)
Definition readHeader (d : Decoder) : result (option Header * Decoder) :=
  let headerPosition := tell (dbuffer d) in
  match decodeHeader (dbuffer d) with
  | Ok (h, n) => Ok (Some h, set_dbuffer (seek (headerPosition + n) (dbuffer d)) d)
  | Raise EOFError => Ok (None, set_dbuffer (seek headerPosition (dbuffer d)) d)
  | Raise e => Raise e
  end.

(** [Decoder._decode] *)
Definition _decode (d : Decoder) : result Decoder :=
  do d <- match currentChannel d with
          | Some _ => readFrame d
          | None => Ok d
          end;
  let (continue, d) := canContinue 1 d in
  if negb continue then Ok (Decoder_pause d)
  else
    do (h, d) <- readHeader d;
    match h with
    | None => Ok (Decoder_pause d)
    | Some h =>
        let cid := channelId h in
        let channel := openChannel h (dchannels d !! cid) in
        let d := mkDecoder (dbuffer d) (Some cid) (<[cid := channel]> (dchannels d))
                           (dframeSize d) (drunning d) in
        readFrame d
    end.

(** [Decoder.decode]: one tick of the decoder. *)
Definition Decoder_decode (d : Decoder) : result Decoder :=
  let (continue, d) := canContinue 1 d in
  if negb continue then Ok (Decoder_pause d)
  else
    let d := set_dbuffer (seek 0 (dbuffer d)) d in
    do d <- _decode d;
    Ok (set_dbuffer (consume (dbuffer d)) d).

End WithDecoderEnv.

(** A decoder environment to run the tick on: a header is two bytes, the
    channel id and the length of the body; a channel is opened empty for a
    body of that length and keeps the bodies delivered so far. *)
Definition plain_decoder_env : DecoderEnv := {|
  decodeHeader := fun buf =>
    do (bs, _) <- read 2 buf;
    match bs with
    | [c; l] => Ok (mkHeader (Z_of_byte c) 0 (Z_of_byte l) 8 1, 2%nat)
    | _ => Raise CodecDecodeError
    end;
  openChannel := fun h old =>
    mkChannel h [] (Z.to_nat (bodyLength h)) 0
              (match old with Some c => delivered c | None => [] end)
|}.

End Codec.

(** ** Streams ([rtmpy/protocol/stream.py]) *)

Module Stream.
Import Buffer Event Codec.

(** A client is known by its identity; as a Python object it counts as
    true in a condition. *)
Definition Client : Type := nat.

(** The arguments of the subscriber callbacks. *)
Inductive arg : Type :=
  | Bytes (data : list byte)
  | Time (time : Z).

(** A subscriber: its identity and its methods.  [getattr] gives the method
    of a name, if the subscriber has one; a method called on arguments
    returns ([None]) or raises. *)
Record Subscriber : Type := mkSubscriber {
  subscriberId : nat;
  getattr : string -> option (list arg -> option exn)
}.

(** A call made to a method of a subscriber. *)
Definition Call : Type := nat * string * list arg.

(** [SubscriberStream]; [calls] collects the calls made to subscribers,
    oldest first. *)
Record SubscriberStream : Type := mkSubscriberStream {
  subscribers : list Subscriber;
  publisher : option Client;
  calls : list Call
}.

(** [SubscriberStream.__init__] *)
Definition SubscriberStream_new : SubscriberStream := mkSubscriberStream [] None [].

Definition subscribed (s : Subscriber) (ss : SubscriberStream) : bool :=
  existsb (fun x => Nat.eqb (subscriberId x) (subscriberId s)) (subscribers ss).

(** [SubscriberStream.addSubscriber] *)
Definition addSubscriber (s : Subscriber) (ss : SubscriberStream) : result SubscriberStream :=
  if subscribed s ss then Raise ValueError
  else Ok (mkSubscriberStream (subscribers ss ++ [s]) (publisher ss) (calls ss)).

Fixpoint remove_first (s : Subscriber) (l : list Subscriber) : list Subscriber :=
  match l with
  | [] => []
  | x :: rest =>
      if Nat.eqb (subscriberId x) (subscriberId s) then rest
      else x :: remove_first s rest
  end.

(** [SubscriberStream.removeSubscriber] *)
Definition removeSubscriber (s : Subscriber) (ss : SubscriberStream)
  : result SubscriberStream :=
  if subscribed s ss
  then Ok (mkSubscriberStream (remove_first s (subscribers ss)) (publisher ss) (calls ss))
  else Raise ValueError.

(** The call that [_notify] makes to a subscriber. *)
Definition call_of (attr : string) (args : list arg) (s : Subscriber) : Call :=
  (subscriberId s, attr, args).

(** The subscriber has the method and the method returns on these
    arguments. *)
Definition accepts (attr : string) (args : list arg) (s : Subscriber) : Prop :=
  exists m, getattr s attr = Some m /\ m args = None.

(** The subscriber has the method and the method raises [e] on these
    arguments. *)
Definition raises (attr : string) (args : list arg) (e : exn) (s : Subscriber) : Prop :=
  exists m, getattr s attr = Some m /\ m args = Some e.

(** The loop of [_notify] over the subscribers still to be served.  The
    result is the stream after the loop and the exception that ended it,
    if one did. *)
Fixpoint notify_each (attr : string) (args : list arg) (todo : list Subscriber)
    (ss : SubscriberStream) : SubscriberStream * option exn :=
  match todo with
  | [] => (ss, None)
  | s :: rest =>
      match getattr s attr with
      | None => (ss, Some AttributeError)
      | Some m =>
          let ss := mkSubscriberStream (subscribers ss) (publisher ss)
                      (calls ss ++ [call_of attr args s]) in
          match m args with
          | Some e => (ss, Some e)
          | None => notify_each attr args rest ss
          end
      end
  end.

(** [SubscriberStream._notify] *)
Definition _notify (attr : string) (args : list arg) (ss : SubscriberStream)
  : SubscriberStream * option exn :=
  notify_each attr args (subscribers ss) ss.

(** [SubscriberStream.setPublisher] *)
Definition setPublisher (publisher : Client) (ss : SubscriberStream)
  : SubscriberStream * option exn :=
  let ss := mkSubscriberStream (subscribers ss) (Some publisher) (calls ss) in
  _notify "streamPublished" [] ss.

(** [SubscriberStream.removePublisher] *)
Definition removePublisher (publisher : Client) (ss : SubscriberStream)
  : SubscriberStream * option exn :=
  let ss := mkSubscriberStream (subscribers ss) None (calls ss) in
  _notify "streamUnpublished" [] ss.

(** [SubscriberStream.videoDataReceived] *)
Definition videoDataReceived (data : list byte) (time : Z) (ss : SubscriberStream)
  : SubscriberStream * option exn :=
  _notify "videoDataReceived" [Bytes data; Time time] ss.

(** [SubscriberStream.audioDataReceived] *)
Definition audioDataReceived (data : list byte) (time : Z) (ss : SubscriberStream)
  : SubscriberStream * option exn :=
  _notify "audioDataReceived" [Bytes data; Time time] ss.

(** Subscribers to run the fan-out on: one whose methods all return, one
    whose [videoDataReceived] raises, and a stream with three subscribers
    of which the second is of the latter kind. *)
Definition quiet (id : nat) : Subscriber :=
  mkSubscriber id (fun _ => Some (fun _ => None)).

Definition faulty (id : nat) : Subscriber :=
  mkSubscriber id
    (fun attr => Some (fun _ => if String.eqb attr "videoDataReceived"
                                then Some RuntimeError else None)).

Definition audience : SubscriberStream :=
  mkSubscriberStream [quiet 1; faulty 2; quiet 3] (Some 7%nat) [].

(** A subscriber all of whose methods raise, and a stream published by
    client 7 whose second subscriber is of that kind. *)
Definition grumpy (id : nat) : Subscriber :=
  mkSubscriber id (fun _ => Some (fun _ => Some RuntimeError)).

Definition hecklers : SubscriberStream :=
  mkSubscriberStream [quiet 1; grumpy 2; quiet 3] (Some 7%nat) [].

(** *** The stream of a connection *)

(** What a stream hands to [writeEvent]. *)
Inductive OutEvent : Type :=
  | OnStatus (code : string) (clientid : Client)
  | Control (type value1 : Z).

Record Written : Type := mkWritten {
  wchannelId : Z;
  wstreamId : Z;
  wtimestamp : Z;
  wevent : OutEvent
}.

(** The protocol of the connection, as far as a stream uses it: the
    client, the events handed to [writeEvent] (oldest first), whether
    [writePacket] accepts a packet, the failures handed to
    [logAndDisconnect], and the timestamp of stream 0. *)
Record Protocol : Type := mkProtocol {
  client : Client;
  written : list Written;
  writePacketRaises : bool;
  disconnects : list exn;
  controlTimestamp : Z
}.

(** [Stream]: [stream] refers to a named stream by the name of its
    application and its own name. *)
Record Stream : Type := mkStream {
  streamId : Z;
  timestamp : Z;
  published : bool;
  stream : option (string * string);
  streamName : option string;
  application : option string
}.

(** The names that [rtmpy/protocol/stream.py] binds at its top level: those
    of its import statements (lines 11 to 16) and of its four classes.  The
    module uses the name [event] ([event.Invoke], [event.get_type_class],
    [event.decode], [event.encode], [event.ControlEvent]) and does not bind
    it. *)
Definition module_globals : list string :=
  ["urlparse"; "implements"; "defer"; "reactor"; "error"; "interfaces"; "status"; "util";
   "BaseStream"; "ExtendedBaseStream"; "Stream"; "SubscriberStream"].

(** The lookup of a global name when the code runs: a name that the module
    does not bind raises [NameError]. *)
Definition global (name : string) : result unit :=
  if existsb (String.eqb name) module_globals then Ok tt else Raise NameError.

(** [BaseStream.setTimestamp] *)
Definition setTimestamp (time : Z) (relative : bool) (st : Stream) : Stream :=
  mkStream (streamId st) (if relative then timestamp st + time else time)
           (published st) (stream st) (streamName st) (application st).

(** [BaseStream.writeEvent]: [event.encode] is looked up and called; the
    encoded event is handed to [writePacket] with the stream's id and
    timestamp, and the deferred fires ([true]) unless [writePacket]
    raises. *)
Definition writeEvent (e : OutEvent) (channelId sid time : Z) (p : Protocol)
  : result (Protocol * bool) :=
  do _ <- global "event";
  Ok (mkProtocol (client p) (written p ++ [mkWritten channelId sid time e])
                 (writePacketRaises p) (disconnects p) (controlTimestamp p),
      negb (writePacketRaises p)).

(** [BaseStream.sendStatus]: the status object is built, then
    [event.Invoke] is looked up to wrap it, then the event is written on
    channel 4. *)
Definition sendStatus (code : string) (st : Stream) (p : Protocol)
  : result (Protocol * bool) :=
  do _ <- global "event";
  writeEvent (OnStatus code (client p)) 4 (streamId st) (timestamp st) p.

(** How [eventReceived] ends: an exception leaves it, or the failure of
    the decoding goes to [logAndDisconnect], or the decoded event goes to
    [dispatchEvent]. *)
Inductive Received {amf : AMFCodec} : Type :=
  | Raised (e : exn)
  | Disconnected (e : exn)
  | Dispatched (e : event amf).

(** [BaseStream.eventReceived], for the header of the channel and the
    body: the timestamp is set, then [event.get_type_class] and
    [event.decode] are looked up and called. *)
Definition eventReceived {amf : AMFCodec} (h : Header) (data : list byte)
    (st : Stream) (p : Protocol) : Stream * Protocol * Received :=
  let st := setTimestamp (Codec.timestamp h) true st in
  match (do _ <- global "event"; get_type_class (datatype h)) with
  | Raise e => (st, p, Raised e)
  | Ok kls =>
      match decode (datatype h) data with
      | Raise e =>
          (st,
           mkProtocol (client p) (written p) (writePacketRaises p) (disconnects p ++ [e])
                      (controlTimestamp p),
           Disconnected e)
      | Ok e => (st, p, Dispatched e)
      end
  end.

(** *** Publishing *)

(** The named streams of the applications, by application name and stream
    name. *)
Abbreviation Registry := (gmap (string * string) SubscriberStream).

(** What the application hook [onPublish] answers. *)
Inductive HookResult : Type :=
  | hook_False
  | hook_other
  | hook_raises (e : exn).

(** The collaborators of [publish] that are not among the sources: the
    path component that [urlparse] finds in a stream URL and the
    application hook. *)
Record Environment : Type := mkEnvironment {
  urlparse_path : string -> string;
  onPublish : string -> Client -> string -> HookResult
}.

(** Modelled from the spec: [Application.getStream] is not among the
    sources; section 4.I has the server look up or create the named
    stream. *)
Definition getStream (app name : string) (reg : Registry) : SubscriberStream * Registry :=
  match reg !! (app, name) with
  | Some ss => (ss, reg)
  | None => (SubscriberStream_new, <[(app, name) := SubscriberStream_new]> reg)
  end.

(** The publisher of a named stream, if the stream exists and has one. *)
Definition publisher_of (reg : Registry) (key : string * string) : option Client :=
  reg !! key ≫= publisher.

(** [ExtendedBaseStream._getStreamName] *)
Definition _getStreamName (env : Environment) (url : string) : string :=
  urlparse_path env url.

(** The state that [publish] leaves, whether the deferred that it returns
    has fired, and the exception that left [publish], if one did. *)
Record Published : Type := mkPublished {
  registry : Registry;
  protocol : Protocol;
  self : Stream;
  fired : bool;
  raised : option exn
}.

(** [Stream.publish].  On a named stream that has a publisher
    [sendStatus] is called in [publish] itself, so an exception of it
    leaves [publish].  Otherwise the rest runs in callbacks
    ([checkPublishRequest] on the deferred of the hook, [doStatus] on that
    of the control event): an exception raised in a callback stays in its
    deferred as a failure, and [publish] returns its own deferred, which
    then never fires. *)
Definition publish (env : Environment) (url app : string)
    (reg : Registry) (p : Protocol) (st : Stream) : Published :=
  let st := mkStream (streamId st) (timestamp st) (published st) (stream st)
                     (streamName st) (Some app) in
  let name := _getStreamName env url in
  let (ss, reg) := getStream app name reg in
  let st := mkStream (streamId st) (timestamp st) (published st) (Some (app, name))
                     (streamName st) (application st) in
  if bool_decide (is_Some (publisher ss)) then
    match sendStatus "NetStream.Publish.BadName" st p with
    | Raise e => mkPublished reg p st false (Some e)
    | Ok (p, f) => mkPublished reg p st f None
    end
  else
    let st := mkStream (streamId st) (timestamp st) (published st) (stream st)
                       (Some name) (application st) in
    match onPublish env app (client p) name with
    | hook_raises _ => mkPublished reg p st false None
    | hook_False =>
        match sendStatus "NetStream.Publish.BadName" st p with
        | Raise _ => mkPublished reg p st false None
        | Ok (p, f) => mkPublished reg p st f None
        end
    | hook_other =>
        match (do _ <- global "event";
               writeEvent (Control 0 1) 2 0 (controlTimestamp p) p) with
        | Raise _ => mkPublished reg p st false None
        | Ok (p, false) => mkPublished reg p st false None
        | Ok (p, true) =>
            match sendStatus "NetStream.Publish.Start" st p with
            | Raise _ => mkPublished reg p st false None
            | Ok (p, f) =>
                let (ss, failed) := setPublisher (client p) ss in
                let reg := <[(app, name) := ss]> reg in
                match failed with
                | Some _ => mkPublished reg p st false None
                | None =>
                    let st := mkStream (streamId st) (timestamp st) true (stream st)
                                       (streamName st) (application st) in
                    mkPublished reg p st f None
                end
            end
        end
    end.

(** [ExtendedBaseStream.onAudioData] and [onVideoData]: the data goes to
    the named stream of this stream with the stream's timestamp. *)
Definition onAudioData (data : list byte) (reg : Registry) (st : Stream)
  : result (Registry * option exn) :=
  match stream st with
  | None => Raise AttributeError
  | Some key =>
      match reg !! key with
      | None => Raise KeyError
      | Some ss =>
          let (ss, raised) := audioDataReceived data (timestamp st) ss in
          Ok (<[key := ss]> reg, raised)
      end
  end.

Definition onVideoData (data : list byte) (reg : Registry) (st : Stream)
  : result (Registry * option exn) :=
  match stream st with
  | None => Raise AttributeError
  | Some key =>
      match reg !! key with
      | None => Raise KeyError
      | Some ss =>
          let (ss, raised) := videoDataReceived data (timestamp st) ss in
          Ok (<[key := ss]> reg, raised)
      end
  end.

(** *** Closing a stream *)

(** The state that [closeStream] and [connectionLost] leave, and the
    exception that left them, if one did. *)
Record Closed : Type := mkClosed {
  closed_registry : Registry;
  closed_protocol : Protocol;
  closed_self : Stream;
  closed_raised : option exn
}.

(** [Stream.closeStream].  [onUnpublish] is the hook of the application,
    which returns ([None]) or raises; it is given the name of the
    application, the client and the key of the named stream.  The
    attributes [stream], [application] and [streamName] are [None] while
    the stream object does not have them set to an object. *)
Definition closeStream (onUnpublish : string -> Client -> string * string -> option exn)
    (reg : Registry) (p : Protocol) (st : Stream) : Closed :=
  match stream st with
  | None => mkClosed reg p st (Some AttributeError)
  | Some key =>
      match reg !! key with
      | None => mkClosed reg p st (Some KeyError)
      | Some ss =>
          let (ss, raised) := removePublisher (client p) ss in
          let reg := <[key := ss]> reg in
          match raised with
          | Some e => mkClosed reg p st (Some e)
          | None =>
              let st := mkStream (streamId st) 0 false (stream st) (streamName st)
                                 (application st) in
              match application st with
              | None => mkClosed reg p st (Some AttributeError)
              | Some app =>
                  match onUnpublish app (client p) key with
                  | Some e => mkClosed reg p st (Some e)
                  | None =>
                      match streamName st with
                      | None => mkClosed reg p st (Some AttributeError)
                      | Some _ =>
                          match sendStatus "NetStream.Unpublish.Success" st p with
                          | Raise e => mkClosed reg p st (Some e)
                          | Ok (p, _) => mkClosed reg p st None
                          end
                      end
                  end
              end
          end
      end
  end.

(** [Stream.connectionLost]; [lost] tells whether the reason is a
    [ConnectionLost]. *)
Definition connectionLost (lost : bool) (reg : Registry) (p : Protocol) (st : Stream)
  : Closed :=
  if lost then
    match stream st with
    | None => mkClosed reg p st (Some AttributeError)
    | Some key =>
        match reg !! key with
        | None => mkClosed reg p st (Some KeyError)
        | Some ss =>
            let (ss, raised) := removePublisher (client p) ss in
            let reg := <[key := ss]> reg in
            match raised with
            | Some e => mkClosed reg p st (Some e)
            | None =>
                mkClosed reg p
                  (mkStream (streamId st) 0 false (stream st) (streamName st)
                            (application st))
                  None
            end
        end
    end
  else mkClosed reg p st None.

(** The identities of the subscribers, in insertion order. *)
Definition subscriberIds (ss : SubscriberStream) : list nat :=
  map subscriberId (subscribers ss).

(** A stream with two subscribers whose methods all return, published by
    client 7. *)
Definition listeners : SubscriberStream :=
  mkSubscriberStream [quiet 1; quiet 3] (Some 7%nat) [].

End Stream.

(** * Properties *)

(** ** Byte buffer *)

Section BufferFacts.
Import Buffer.
Local Open Scope nat_scope.

Lemma read_enough (n : nat) (b : BufferedByteStream) :
  n <= remaining b ->
  read n b = Ok (take n (drop (bpos b) (bdata b)), mkBuffer (bdata b) (bpos b + n)).
Proof.
  intros Hn. unfold read.
  destruct (Nat.ltb_spec (remaining b) n) as [Hlt | _]; [lia | reflexivity].
Qed.

Lemma read_short_of (n : nat) (b : BufferedByteStream) :
  remaining b < n -> read n b = Raise EOFError.
Proof.
  intros Hn. unfold read.
  destruct (Nat.ltb_spec (remaining b) n) as [_ | Hge]; [reflexivity | lia].
Qed.

Lemma write_at_tail (data : list byte) (b : BufferedByteStream) :
  seek 0 (write data (seek_end b)) = mkBuffer (bdata b ++ data) 0.
Proof.
  unfold seek, write, seek_end; cbn [bdata bpos]. f_equal.
  rewrite firstn_all, (skipn_all2 (n := length (bdata b) + length data)) by lia.
  now rewrite app_nil_r.
Qed.

End BufferFacts.

(** ** Client handshake *)

Section ClientFacts.
Import Buffer Client.
Local Open Scope nat_scope.

(** What [decodeHandshake] computes when the cursor is at the start of the
    buffer, which is where [dataReceived] leaves it. *)
Lemma decodeHandshake_at_start (p : RTMPClientProtocol) (rx : list byte) :
  buffer p = mkBuffer rx 0 ->
  decodeHandshake p =
    match rx with
    | [] => Ok p
    | b :: _ =>
        let peer := take HANDSHAKE_LENGTH (drop 1 rx) in
        let echo := take HANDSHAKE_LENGTH (drop (1 + HANDSHAKE_LENGTH) rx) in
        if bool_decide (b = x03) then
          if Nat.ltb (length rx) (HANDSHAKE_LENGTH * 2 + 1)
          then Ok (set_buffer (mkBuffer rx 1) p)
          else if bool_decide (echo = my_handshake p)
          then Ok (dispatch HANDSHAKE_SUCCESS
                     (transport_write peer
                        (set_buffer
                           (mkBuffer (drop (1 + HANDSHAKE_LENGTH + HANDSHAKE_LENGTH) rx) 0)
                           (set_received peer p))))
          else Ok (dispatch (HANDSHAKE_FAILURE "Handshake mismatch")
                     (set_buffer (mkBuffer rx (1 + HANDSHAKE_LENGTH + HANDSHAKE_LENGTH))
                        (set_received peer p)))
        else Ok (dispatch (HANDSHAKE_FAILURE "Invalid header byte received")
                   (set_buffer (mkBuffer rx 1) p))
    end.
Proof.
  intros Hbuf. unfold decodeHandshake. rewrite Hbuf. unfold len; cbn [bdata].
  destruct rx as [| b rest]; [reflexivity |].
  replace (Nat.ltb (length (b :: rest)) 1) with false
    by (symmetry; apply Nat.ltb_ge; cbn [length]; lia).
  rewrite read_enough by (unfold remaining; cbn [bdata bpos length]; lia).
  cbn [bind bdata bpos buffer set_buffer].
  replace (take 1 (drop 0 (b :: rest))) with [b] by reflexivity.
  unfold HEADER_BYTE.
  destruct (decide (b = x03)) as [-> | Hb].
  - rewrite !bool_decide_eq_true_2 by reflexivity. cbn [negb].
    destruct (Nat.ltb_spec (length (x03 :: rest)) (HANDSHAKE_LENGTH * 2 + 1)) as [Hlt | Hge];
      [reflexivity |].
    rewrite read_enough by (unfold remaining; cbn [bdata bpos]; lia).
    cbn [bind bdata bpos buffer set_buffer set_received].
    rewrite read_enough by (unfold remaining; cbn [bdata bpos]; lia).
    cbn [bind bdata bpos buffer set_buffer set_received my_handshake].
    replace (0 + 1) with 1 by reflexivity.
    destruct (decide (take HANDSHAKE_LENGTH (drop (1 + HANDSHAKE_LENGTH) (x03 :: rest))
                      = my_handshake p)) as [He | He].
    + rewrite !bool_decide_eq_true_2 by exact He. cbn [negb].
      unfold _consumeBuffer, consume; cbn [bdata bpos buffer set_buffer]. reflexivity.
    + rewrite !bool_decide_eq_false_2 by exact He. cbn [negb]. reflexivity.
  - rewrite !bool_decide_eq_false_2 by congruence. reflexivity.
Qed.

(** C1. In the handshake state, with [rx] the bytes buffered so far and
    [echo] the second 1536-byte block of [rx]: [dataReceived] returns
    normally; it dispatches a handshake failure exactly when [rx] has a
    leading byte other than 0x03 or holds 1 + 1536 + 1536 bytes with [echo]
    different from [my_handshake], and then writes nothing; with the full
    length, a leading 0x03 and a matching echo it writes the first block
    back, dispatches success and keeps the leftover bytes; with a leading
    0x03 and fewer bytes it writes nothing, dispatches nothing and keeps
    all bytes buffered. *)
Theorem decodeHandshake_decision (p : RTMPClientProtocol) (data : list byte) :
  state p = HANDSHAKE ->
  let rx := bdata (buffer p) ++ data in
  let peer := take HANDSHAKE_LENGTH (drop 1 rx) in
  let echo := take HANDSHAKE_LENGTH (drop (1 + HANDSHAKE_LENGTH) rx) in
  exists p',
    dataReceived data p = Ok p' /\
    ((exists reason, dispatched p' = dispatched p ++ [HANDSHAKE_FAILURE reason]) <->
     ((exists b rest, rx = b :: rest /\ b <> x03) \/
      (1 + HANDSHAKE_LENGTH + HANDSHAKE_LENGTH <= length rx /\ echo <> my_handshake p))) /\
    ((exists reason, dispatched p' = dispatched p ++ [HANDSHAKE_FAILURE reason]) ->
     transport p' = transport p) /\
    (1 + HANDSHAKE_LENGTH + HANDSHAKE_LENGTH <= length rx ->
     head rx = Some x03 -> echo = my_handshake p ->
     transport p' = transport p ++ [peer] /\
     dispatched p' = dispatched p ++ [HANDSHAKE_SUCCESS] /\
     received_handshake p' = Some peer /\
     buffer p' = mkBuffer (drop (1 + HANDSHAKE_LENGTH + HANDSHAKE_LENGTH) rx) 0) /\
    (length rx < 1 + HANDSHAKE_LENGTH + HANDSHAKE_LENGTH ->
     head rx = Some x03 ->
     transport p' = transport p /\
     dispatched p' = dispatched p /\
     bdata (buffer p') = rx).
Proof.
  intros Hst rx. cbv zeta.
  unfold dataReceived. rewrite write_at_tail. fold rx. clearbody rx.
  change (state (set_buffer (mkBuffer rx 0) p)) with (state p). rewrite Hst.
  rewrite (decodeHandshake_at_start _ rx) by reflexivity.
  change (my_handshake (set_buffer (mkBuffer rx 0) p)) with (my_handshake p).
  assert (Hnil : forall (l : list ProtocolEvent) e, l <> l ++ [e]).
  { intros l e Heq. apply (f_equal (@length _)) in Heq.
    rewrite length_app in Heq. cbn in Heq. lia. }
  assert (Hsucc : forall (l : list ProtocolEvent) r,
             l ++ [HANDSHAKE_SUCCESS] <> l ++ [HANDSHAKE_FAILURE r]).
  { intros l r Heq. apply app_inv_head in Heq. discriminate. }
  destruct rx as [| b rest].
  - eexists; split; [reflexivity |]. cbn [dispatched set_buffer transport].
    split; [split |]; [| | split; [| split]].
    + intros [r Hr]. now apply Hnil in Hr.
    + intros [(b & rest & Hc & _) | [Hlen _]]; [discriminate | cbn in Hlen; lia].
    + reflexivity.
    + intros _ Hhd. discriminate.
    + intros _ Hhd. discriminate.
  - cbv zeta.
    set (rx := b :: rest).
    assert (Hhead : head rx = Some b) by reflexivity.
    set (echo := take HANDSHAKE_LENGTH (drop (1 + HANDSHAKE_LENGTH) rx)).
    destruct (decide (b = x03)) as [Hb | Hb].
    + rewrite (bool_decide_eq_true_2 _ Hb).
      destruct (Nat.ltb_spec (length rx) (HANDSHAKE_LENGTH * 2 + 1)) as [Hlt | Hge].
      * eexists; split; [reflexivity |]. cbn [dispatched set_buffer transport buffer bdata].
        split; [split |]; [| | split; [| split]].
        -- intros [r Hr]. now apply Hnil in Hr.
        -- intros [(b' & rest' & Hc & Hne) | [Hlen _]]; [| lia].
           subst rx. congruence.
        -- reflexivity.
        -- intros Hlen. lia.
        -- intros _ _. repeat split.
      * destruct (decide (echo = my_handshake p)) as [He | He].
        -- rewrite (bool_decide_eq_true_2 _ He).
           eexists; split; [reflexivity |].
           cbn [dispatched set_buffer transport buffer bdata transport_write set_received
                received_handshake dispatch].
           split; [split |]; [| | split; [| split]].
           ++ intros [r Hr]. now apply Hsucc in Hr.
           ++ intros [(b' & rest' & Hc & Hne) | [_ Hne]]; [| contradiction].
              subst rx. congruence.
           ++ intros [r Hr]. now apply Hsucc in Hr.
           ++ intros _ _ _. repeat split.
           ++ intros Hlen. lia.
        -- rewrite (bool_decide_eq_false_2 _ He).
           eexists; split; [reflexivity |].
           cbn [dispatched set_buffer transport buffer bdata transport_write set_received
                received_handshake dispatch].
           split; [split |]; [| | split; [| split]].
           ++ intros _. right. split; [lia | exact He].
           ++ intros _. eexists; reflexivity.
           ++ reflexivity.
           ++ intros _ _ Hecho. contradiction.
           ++ intros Hlen. lia.
    + rewrite (bool_decide_eq_false_2 _ Hb).
      eexists; split; [reflexivity |].
      cbn [dispatched set_buffer transport buffer bdata dispatch].
      split; [split |]; [| | split; [| split]].
      * intros _. left. exists b, rest. split; [reflexivity | exact Hb].
      * intros _. eexists; reflexivity.
      * reflexivity.
      * intros _ Hhd. congruence.
      * intros _ Hhd. congruence.
Qed.

(** A run of the handshake: the client drew 1536 zero bytes, the peer
    answers 0x03, 1536 bytes 0x07 and the echo. *)
Lemma decodeHandshake_decision_witness :
  let p0 := connectionMade (repeat x00 1536) in
  let answer := x03 :: repeat x07 1536 ++ repeat x00 1536 in
  state p0 = HANDSHAKE /\
  exists p',
    dataReceived answer p0 = Ok p' /\
    transport p' = [[x03]; repeat x00 1536; repeat x07 1536] /\
    dispatched p' = [HANDSHAKE_SUCCESS].
Proof.
  intros p0 answer. split; [reflexivity |].
  destruct (decodeHandshake_decision p0 answer eq_refl)
    as (p' & Hrun & _ & _ & Hok & _).
  exists p'. split; [exact Hrun |].
  destruct Hok as (Ht & Hd & _).
  - apply Nat.leb_le. vm_compute. reflexivity.
  - vm_compute. reflexivity.
  - vm_compute. reflexivity.
  - split; [rewrite Ht; vm_compute; reflexivity | exact Hd].
Defined.

End ClientFacts.

(** ** Big-endian integers *)

Section IntegerFacts.
Import Buffer.

Lemma Z_of_byte_of_Z (z : Z) : Z_of_byte (byte_of_Z z) = z mod 256.
Proof.
  pose proof (Z.mod_pos_bound z 256 ltac:(lia)) as Hb.
  unfold byte_of_Z, Z_of_byte.
  destruct (Byte.of_N (Z.to_N (z mod 256))) as [b |] eqn:E.
  - apply Byte.to_of_N in E. rewrite E. apply Z2N.id. lia.
  - apply Byte.of_N_None_iff in E. lia.
Qed.

Lemma be_value_snoc (bs : list byte) (b : byte) :
  be_value (bs ++ [b]) = be_value bs * 256 + Z_of_byte b.
Proof. unfold be_value. now rewrite fold_left_app. Qed.

Lemma be_bytes_length (n : nat) (z : Z) : length (be_bytes n z) = n.
Proof.
  revert z. induction n as [| n IH]; intros z; [reflexivity |].
  cbn [be_bytes]. rewrite length_app, IH. cbn. lia.
Qed.

Lemma be_value_be_bytes (n : nat) (z : Z) :
  0 <= z < 2 ^ (8 * Z.of_nat n) -> be_value (be_bytes n z) = z.
Proof.
  revert z. induction n as [| n IH]; intros z Hz.
  - cbn in Hz. cbn. lia.
  - cbn [be_bytes]. rewrite be_value_snoc, Z_of_byte_of_Z.
    replace (8 * Z.of_nat (S n)) with (8 + 8 * Z.of_nat n) in Hz by lia.
    rewrite Z.pow_add_r in Hz by lia. change (2 ^ 8) with 256 in Hz.
    rewrite IH.
    + pose proof (Z.div_mod z 256 ltac:(lia)). lia.
    + split; [apply Z.div_pos; lia |].
      apply Z.div_lt_upper_bound; lia.
Qed.

Lemma write_at_tail_eq (bs : list byte) (b : BufferedByteStream) :
  at_tail b -> write bs b = mkBuffer (bdata b ++ bs) (length (bdata b ++ bs)).
Proof.
  unfold at_tail, write. intros ->.
  rewrite firstn_all, skipn_all2 by lia.
  now rewrite app_nil_r, length_app.
Qed.

Lemma write_keeps_tail (bs : list byte) (b : BufferedByteStream) :
  at_tail b -> at_tail (write bs b).
Proof. intros H. rewrite write_at_tail_eq by exact H. reflexivity. Qed.

Lemma read_inside (n pos : nat) (pre bs post data : list byte) :
  data = pre ++ bs ++ post -> pos = length pre -> length bs = n ->
  read n (mkBuffer data pos) = Ok (bs, mkBuffer data (pos + n)).
Proof.
  intros -> -> Hn.
  rewrite read_enough.
  - cbn [bdata bpos]. rewrite drop_app_length, take_app_length' by (symmetry; exact Hn). reflexivity.
  - unfold remaining; cbn [bdata bpos]. rewrite !length_app. lia.
Qed.

Lemma read_unsigned_inside (n pos : nat) (z : Z) (pre post data : list byte) :
  data = pre ++ be_bytes n z ++ post -> pos = length pre ->
  0 <= z < 2 ^ (8 * Z.of_nat n) ->
  read_unsigned n (mkBuffer data pos) = Ok (z, mkBuffer data (pos + n)).
Proof.
  intros Hd Hp Hz. unfold read_unsigned.
  rewrite (read_inside n pos pre _ post data Hd Hp (be_bytes_length n z)).
  cbn [bind]. now rewrite be_value_be_bytes.
Qed.

Lemma read_signed_inside (n pos : nat) (z : Z) (pre post data : list byte) :
  data = pre ++ be_bytes n (z mod 2 ^ (8 * Z.of_nat n)) ++ post -> pos = length pre ->
  - (2 ^ (8 * Z.of_nat n) / 2) <= z < 2 ^ (8 * Z.of_nat n) / 2 ->
  (0 < n)%nat ->
  read_signed n (mkBuffer data pos) = Ok (z, mkBuffer data (pos + n)).
Proof.
  intros Hd Hp Hz Hn. unfold read_signed.
  rewrite (read_inside n pos pre _ post data Hd Hp (be_bytes_length n _)).
  cbn [bind].
  assert (Hm : 0 < 2 ^ (8 * Z.of_nat n)) by (apply Z.pow_pos_nonneg; lia).
  rewrite be_value_be_bytes by (apply Z.mod_pos_bound; exact Hm).
  set (m := 2 ^ (8 * Z.of_nat n)) in *.
  assert (Heven : m = 2 * (m / 2)).
  { subst m. replace (8 * Z.of_nat n) with (1 + (8 * Z.of_nat n - 1)) by lia.
    rewrite Z.pow_add_r by lia. change (2 ^ 1) with 2.
    rewrite (Z.mul_comm 2), Z.div_mul by lia. lia. }
  f_equal. f_equal.
  destruct (Z.ltb_spec (z mod m) (m / 2)) as [Hlt | Hge].
  - destruct (Z.lt_ge_cases z 0) as [Hneg | Hpos].
    + rewrite <- (Z.mod_add z 1 m) in Hlt by lia.
      rewrite Z.mod_small in Hlt by lia. lia.
    + apply Z.mod_small. lia.
  - destruct (Z.lt_ge_cases z 0) as [Hneg | Hpos].
    + rewrite <- (Z.mod_add z 1 m) by lia.
      rewrite Z.mod_small by lia. lia.
    + rewrite Z.mod_small in Hge by lia. lia.
Qed.

End IntegerFacts.

(** ** Event codec *)

Section EventFacts.
Import Buffer Event.
Context {amf : AMFCodec}.

Lemma datatype_of_class (kls : event_class) :
  exists datatype, datatype_of kls = Some datatype /\ TYPE_MAP !! datatype = Some kls.
Proof. destruct kls; eexists; split; vm_compute; reflexivity. Qed.

Lemma write_int_in_range (n : nat) (lo hi z : Z) (b : BufferedByteStream) :
  at_tail b -> lo <= z <= hi ->
  write_int n lo hi (Some z) b
  = Ok (mkBuffer (bdata b ++ be_bytes n (z mod 2 ^ (8 * Z.of_nat n)))
                 (length (bdata b ++ be_bytes n (z mod 2 ^ (8 * Z.of_nat n))))).
Proof.
  intros Ht Hz. unfold write_int.
  destruct (Z.leb_spec lo z); [| lia]. destruct (Z.leb_spec z hi); [| lia].
  cbn [andb]. now rewrite write_at_tail_eq.
Qed.

Lemma at_tail_empty : at_tail empty.
Proof. reflexivity. Qed.

Lemma at_tail_mk (data : list byte) : at_tail (mkBuffer data (length data)).
Proof. reflexivity. Qed.

Lemma read_ulong_inside (pos : nat) (z : Z) (pre post data : list byte) :
  data = pre ++ be_bytes 4 (z mod 2 ^ (8 * Z.of_nat 4)) ++ post -> pos = length pre ->
  0 <= z <= 4294967295 ->
  read_ulong (mkBuffer data pos) = Ok (z, mkBuffer data (pos + 4)).
Proof.
  intros Hd Hp Hz. change (2 ^ (8 * Z.of_nat 4)) with 4294967296 in Hd.
  rewrite Z.mod_small in Hd by lia.
  apply (read_unsigned_inside 4 pos z pre post data Hd Hp).
  change (2 ^ (8 * Z.of_nat 4)) with 4294967296. lia.
Qed.

Lemma read_uchar_inside (pos : nat) (z : Z) (pre post data : list byte) :
  data = pre ++ be_bytes 1 (z mod 2 ^ (8 * Z.of_nat 1)) ++ post -> pos = length pre ->
  0 <= z <= 255 ->
  read_uchar (mkBuffer data pos) = Ok (z, mkBuffer data (pos + 1)).
Proof.
  intros Hd Hp Hz. change (2 ^ (8 * Z.of_nat 1)) with 256 in Hd.
  rewrite Z.mod_small in Hd by lia.
  apply (read_unsigned_inside 1 pos z pre post data Hd Hp).
  change (2 ^ (8 * Z.of_nat 1)) with 256. lia.
Qed.

Lemma read_long_inside (pos : nat) (z : Z) (pre post data : list byte) :
  data = pre ++ be_bytes 4 (z mod 2 ^ (8 * Z.of_nat 4)) ++ post -> pos = length pre ->
  -2147483648 <= z <= 2147483647 ->
  read_long (mkBuffer data pos) = Ok (z, mkBuffer data (pos + 4)).
Proof.
  intros Hd Hp Hz.
  apply (read_signed_inside 4 pos z pre post data Hd Hp); [| lia].
  change (2 ^ (8 * Z.of_nat 4) / 2) with 2147483648. lia.
Qed.

Lemma read_short_inside (pos : nat) (z : Z) (pre post data : list byte) :
  data = pre ++ be_bytes 2 (z mod 2 ^ (8 * Z.of_nat 2)) ++ post -> pos = length pre ->
  -32768 <= z <= 32767 ->
  read_short (mkBuffer data pos) = Ok (z, mkBuffer data (pos + 2)).
Proof.
  intros Hd Hp Hz.
  apply (read_signed_inside 2 pos z pre post data Hd Hp); [| lia].
  change (2 ^ (8 * Z.of_nat 2) / 2) with 32768. lia.
Qed.

(** A single unsigned 32-bit attribute, written to an empty body and read
    back from it. *)
Lemma ulong_body (z : Z) :
  0 <= z <= 4294967295 ->
  exists body,
    type_error_is_encode_error (write_ulong (Some z) empty)
    = Ok (mkBuffer body (length body)) /\
    read_ulong (of_bytes body) = Ok (z, mkBuffer body (length body)).
Proof.
  intros Hz. unfold write_ulong.
  rewrite write_int_in_range by (apply at_tail_empty || exact Hz).
  cbn [bdata empty app type_error_is_encode_error].
  eexists; split; [reflexivity |].
  unfold of_bytes.
  rewrite (read_ulong_inside 0 z [] []) by (rewrite ?app_nil_r; reflexivity || exact Hz).
  now rewrite be_bytes_length.
Qed.

Lemma write_elements_tail (es : list amf_value) :
  forall buf : BufferedByteStream,
    at_tail buf ->
    Forall (fun v => exists bs, writeElement v = Ok bs) es ->
    exists bss,
      Forall2 (fun v bs => writeElement v = Ok bs) es bss /\
      write_elements es buf
      = Ok (mkBuffer (bdata buf ++ concat bss) (length (bdata buf ++ concat bss))).
Proof.
  induction es as [| e es IH]; intros buf Ht Hall.
  - exists []. split; [constructor |]. cbn. rewrite app_nil_r.
    destruct buf as [d pos]. unfold at_tail in Ht. cbn in *. now subst.
  - inversion Hall as [| ? ? [bs Hbs] Hrest]; subst.
    destruct (IH (write bs buf) (write_keeps_tail bs buf Ht) Hrest) as (bss & HF & Hw).
    exists (bs :: bss). split; [constructor; assumption |].
    cbn [write_elements]. rewrite Hbs. cbn [bind]. rewrite Hw.
    rewrite write_at_tail_eq by exact Ht. cbn [bdata concat].
    now rewrite <- !app_assoc.
Qed.

Context (amf_norm : amf_value -> amf_value) {laws : AMFLaws amf amf_norm}.

Lemma readElement_inside (v : amf_value) (bs pre post data : list byte) (pos : nat) :
  writeElement v = Ok bs -> data = pre ++ bs ++ post -> pos = length pre ->
  readElement (mkBuffer data pos) = Ok (amf_norm v, mkBuffer data (pos + length bs)).
Proof. intros Hw -> ->. now apply readElement_writeElement. Qed.

Lemma elements_count (es : list amf_value) (bss : list (list byte)) :
  Forall2 (fun v bs => writeElement v = Ok bs) es bss ->
  (length es <= length (concat bss))%nat.
Proof.
  induction 1 as [| v bs es bss Hw _ IH]; [reflexivity |].
  cbn [length concat]. rewrite length_app.
  apply writeElement_nonempty in Hw. destruct bs; [congruence | cbn; lia].
Qed.

Lemma read_argv_written (es : list amf_value) (bss : list (list byte)) :
  Forall2 (fun v bs => writeElement v = Ok bs) es bss ->
  forall (pre data : list byte) (fuel : nat),
    data = pre ++ concat bss ->
    (length es <= fuel)%nat ->
    read_argv fuel (mkBuffer data (length pre))
    = Ok (map amf_norm es, mkBuffer data (length data)).
Proof.
  induction 1 as [| v bs es bss Hw _ IH]; intros pre data fuel -> Hfuel.
  - cbn [concat]. rewrite app_nil_r.
    destruct fuel; cbn [read_argv]; unfold at_tail, at_eof; cbn [bdata bpos];
      rewrite Nat.leb_refl; reflexivity.
  - destruct fuel as [| fuel]; [cbn in Hfuel; lia |].
    cbn [read_argv concat].
    assert (Hne : bs <> []) by (eapply writeElement_nonempty; eassumption).
    replace (at_eof _) with false.
    2:{ symmetry. unfold at_eof; cbn [bdata bpos]. apply Nat.leb_gt.
        rewrite !length_app. destruct bs; [congruence | cbn; lia]. }
    rewrite (readElement_inside v bs pre (concat bss)) by (reflexivity || exact Hw).
    cbn [bind].
    rewrite <- length_app.
    rewrite (IH (pre ++ bs) _ fuel);
      [reflexivity | now rewrite <- app_assoc | cbn in Hfuel; lia].
Qed.

Local Ltac set_attr v z := destruct v as [z |]; [| contradiction].

Local Ltac shape := rewrite <- ?app_assoc; cbn [app]; rewrite ?app_nil_r; reflexivity.

Local Ltac position := rewrite ?length_app, ?be_bytes_length; reflexivity.

(** The body of a notification: the bytes of the name, of the id and of
    the arguments, and how the decoder walks through them. *)
Lemma elements_body (name id : amf_value) (argv : list amf_value) :
  Forall (fun v => exists bs, writeElement v = Ok bs) (name :: id :: argv) ->
  exists (bn bi : list byte) (bss : list (list byte)),
    let body := bn ++ bi ++ concat bss in
    (do buf <- write_elements [name; id] empty; write_elements argv buf)
    = Ok (mkBuffer body (length body)) /\
    readElement (mkBuffer body 0) = Ok (amf_norm name, mkBuffer body (length bn)) /\
    readElement (mkBuffer body (length bn))
    = Ok (amf_norm id, mkBuffer body (length bn + length bi)) /\
    read_argv (S (remaining (mkBuffer body (length bn + length bi))))
              (mkBuffer body (length bn + length bi))
    = Ok (map amf_norm argv, mkBuffer body (length body)).
Proof.
  intros Hall.
  inversion Hall as [| ? ? [bn Hn] Hall']; subst.
  inversion Hall' as [| ? ? [bi Hi] Hargv]; subst.
  destruct (write_elements_tail argv (mkBuffer (bn ++ bi) (length (bn ++ bi)))
              (at_tail_mk _) Hargv) as (bss & HF & Hw).
  exists bn, bi, bss. cbv zeta.
  cbn [write_elements]. rewrite Hn, Hi. cbn [bind].
  rewrite (write_at_tail_eq bn empty at_tail_empty). cbn [bdata empty app].
  rewrite (write_at_tail_eq bi _ (at_tail_mk bn)). cbn [bdata].
  rewrite Hw. cbn [bdata]. rewrite <- !app_assoc.
  split; [reflexivity |]. split; [| split].
  - now rewrite (readElement_inside name bn [] (bi ++ concat bss) _ 0 Hn).
  - now rewrite (readElement_inside id bi bn (concat bss) _ (length bn) Hi).
  - rewrite <- length_app.
    rewrite (read_argv_written argv bss HF (bn ++ bi)); [reflexivity | shape |].
    unfold remaining; cbn [bdata bpos].
    pose proof (elements_count argv bss HF). rewrite !length_app in *. lia.
Qed.

(** Every event of the encodable domain gets a body, and the [decode]
    method of its class reads the event back from that body, leaving the
    cursor at the end. *)
Lemma decode_encode_event (e : event amf) :
  in_domain e ->
  exists body,
    encode_event e empty = Ok (mkBuffer body (length body)) /\
    decode_event (class_of e) (of_bytes body)
    = Ok (normalize amf_norm e, mkBuffer body (length body)).
Proof.
  destruct e as [size | bytes | type value1 value2 value3 | bandwidth
                | bandwidth extra | name id argv | name id argv | data | data];
    cbn [in_domain]; intros Hdom.
  - set_attr size z. cbn [in_range] in Hdom.
    destruct (ulong_body z Hdom) as (body & He & Hd).
    exists body. cbn [encode_event decode_event class_of normalize].
    rewrite bool_decide_eq_false_2 by discriminate. rewrite He, Hd. now split.
  - set_attr bytes z. cbn [in_range] in Hdom.
    destruct (ulong_body z Hdom) as (body & He & Hd).
    exists body. cbn [encode_event decode_event class_of normalize].
    rewrite bool_decide_eq_false_2 by discriminate. rewrite He, Hd. now split.
  - destruct Hdom as (Ht & H1 & H2 & H3).
    set_attr type t. set_attr value1 v1. set_attr value2 v2. set_attr value3 v3.
    cbn [in_range] in *.
    cbn [encode_event decode_event class_of normalize].
    rewrite bool_decide_eq_false_2 by discriminate.
    unfold write_short, write_long.
    rewrite write_int_in_range by (apply at_tail_empty || exact Ht).
    cbn [bind type_error_is_encode_error bdata empty app].
    rewrite write_int_in_range by (apply at_tail_mk || exact H1).
    cbn [bind type_error_is_encode_error bdata].
    rewrite write_int_in_range by (apply at_tail_mk || exact H2).
    cbn [bind type_error_is_encode_error bdata].
    rewrite write_int_in_range by (apply at_tail_mk || exact H3).
    cbn [bind type_error_is_encode_error bdata].
    set (T := be_bytes 2 _). set (A := be_bytes 4 (v1 mod _)).
    set (B := be_bytes 4 (v2 mod _)). set (C := be_bytes 4 (v3 mod _)).
    eexists; split; [reflexivity |]. unfold of_bytes.
    rewrite (read_short_inside 0 t [] (A ++ B ++ C)); [| subst T; shape | reflexivity | exact Ht].
    cbn [bind].
    rewrite (read_long_inside (0 + 2) v1 T (B ++ C)); [| subst A; shape | subst T; position | exact H1].
    cbn [bind].
    rewrite (read_long_inside (0 + 2 + 4) v2 (T ++ A) C);
      [| subst B; shape | subst T A; position | exact H2].
    cbn [bind].
    rewrite (read_long_inside (0 + 2 + 4 + 4) v3 (T ++ A ++ B) []);
      [| subst C; shape | subst T A B; position | exact H3].
    cbn [bind]. subst T A B C. rewrite !length_app, !be_bytes_length. reflexivity.
  - set_attr bandwidth z. cbn [in_range] in Hdom.
    destruct (ulong_body z Hdom) as (body & He & Hd).
    exists body. cbn [encode_event decode_event class_of normalize].
    rewrite bool_decide_eq_false_2 by discriminate. rewrite He, Hd. now split.
  - destruct Hdom as (Hb & Hx).
    set_attr bandwidth z. set_attr extra x. cbn [in_range] in *.
    cbn [encode_event decode_event class_of normalize].
    rewrite !bool_decide_eq_false_2 by discriminate.
    unfold write_ulong, write_uchar.
    rewrite write_int_in_range by (apply at_tail_empty || exact Hb).
    cbn [bind type_error_is_encode_error bdata empty app].
    rewrite write_int_in_range by (apply at_tail_mk || exact Hx).
    cbn [bind type_error_is_encode_error bdata].
    set (A := be_bytes 4 _). set (B := be_bytes 1 _).
    eexists; split; [reflexivity |]. unfold of_bytes.
    rewrite (read_ulong_inside 0 z [] B); [| subst A; shape | reflexivity | exact Hb].
    cbn [bind].
    rewrite (read_uchar_inside (0 + 4) x A []); [| subst B; shape | subst A; position | exact Hx].
    cbn [bind]. subst A B. rewrite !length_app, !be_bytes_length. reflexivity.
  - destruct (elements_body name id argv Hdom) as (bn & bi & bss & He & Hn & Hi & Ha).
    eexists. cbn [encode_event decode_event class_of normalize].
    split; [exact He |]. unfold of_bytes. rewrite Hn. cbn [bind]. rewrite Hi. cbn [bind].
    rewrite Ha. reflexivity.
  - destruct (elements_body name id argv Hdom) as (bn & bi & bss & He & Hn & Hi & Ha).
    eexists. cbn [encode_event decode_event class_of normalize].
    split; [exact He |]. unfold of_bytes. rewrite Hn. cbn [bind]. rewrite Hi. cbn [bind].
    rewrite Ha. reflexivity.
  - destruct data as [bytes |]; [| congruence].
    exists bytes. cbn [encode_event decode_event class_of normalize].
    rewrite write_at_tail_eq by apply at_tail_empty. split; reflexivity.
  - destruct data as [bytes |]; [| congruence].
    exists bytes. cbn [encode_event decode_event class_of normalize].
    rewrite write_at_tail_eq by apply at_tail_empty. split; reflexivity.
Qed.

(** C3. For every event of a class of the type map whose attributes are in
    their encodable domains, [encode] returns a datatype of that class and
    a body, and [decode] of that datatype and body returns the same event;
    the elements of a [Notify] or [Invoke] come back as the AMF codec
    normalizes them. *)
Theorem decode_encode_roundtrip (e : event amf) :
  in_domain e ->
  exists (datatype : Z) (body : list byte),
    encode e = Ok (datatype, body) /\
    TYPE_MAP !! datatype = Some (class_of e) /\
    decode datatype body = Ok (normalize amf_norm e).
Proof.
  intros Hdom.
  destruct (datatype_of_class (class_of e)) as (datatype & Hdt & Hmap).
  destruct (decode_encode_event e Hdom) as (body & Henc & Hdec).
  exists datatype, body. unfold encode, decode.
  rewrite Hdt, Henc, Hmap, Hdec. cbn [bind getvalue bdata].
  unfold at_eof; cbn [bdata bpos]. rewrite Nat.leb_refl. now repeat split.
Qed.

(** *** Control events on the wire *)

Lemma bind_Ok_inv {A B} (r : result A) (k : A -> result B) (b : B) :
  bind r k = Ok b -> exists a, r = Ok a /\ k a = Ok b.
Proof. destruct r as [a | e]; cbn; [eauto | discriminate]. Qed.

Lemma write_int_Ok_inv (n : nat) (lo hi : Z) (v : option Z) (b b' : BufferedByteStream) :
  type_error_is_encode_error (write_int n lo hi v b) = Ok b' ->
  exists z, v = Some z /\ lo <= z <= hi /\
            b' = write (be_bytes n (z mod 2 ^ (8 * Z.of_nat n))) b.
Proof.
  unfold write_int. destruct v as [z |]; [| discriminate].
  destruct (Z.leb_spec lo z); destruct (Z.leb_spec z hi); cbn; try discriminate.
  intros [= <-]. exists z. repeat split; lia.
Qed.

(** A control body is read as one 16-bit and three 32-bit integers: with
    fewer than 14 bytes one of the four reads runs short. *)
Lemma decode_control_short (body : list byte) :
  (length body < 14)%nat -> decode CONTROL body = Raise EOFError.
Proof.
  intros Hlen. unfold decode.
  change (TYPE_MAP !! CONTROL) with (Some ControlEvent_class).
  cbn [decode_event]. unfold read_short, read_long, read_signed, of_bytes.
  destruct (Nat.le_gt_cases 2 (length body)) as [H2 |];
    [| now rewrite read_short_of by (unfold remaining; cbn; lia)].
  rewrite read_enough by (unfold remaining; cbn; lia). cbn [bind bdata bpos].
  destruct (Nat.le_gt_cases 6 (length body)) as [H6 |];
    [| now rewrite read_short_of by (unfold remaining; cbn; lia)].
  rewrite read_enough by (unfold remaining; cbn; lia). cbn [bind bdata bpos].
  destruct (Nat.le_gt_cases 10 (length body)) as [H10 |];
    [| now rewrite read_short_of by (unfold remaining; cbn; lia)].
  rewrite read_enough by (unfold remaining; cbn; lia). cbn [bind bdata bpos].
  now rewrite read_short_of by (unfold remaining; cbn; lia).
Qed.

(** C8, as the code has it.  [ControlEvent.decode] reads the subtype and
    all three values: a body shorter than 14 bytes, such as one with only
    the subtype and the first value, is refused with a short read.
    [ControlEvent.encode], when it succeeds, has written the subtype and
    all three values, 14 bytes in all. *)
Theorem control_event_wire :
  (forall body : list byte,
      (length body < 14)%nat -> decode CONTROL body = Raise EOFError) /\
  (forall (type value1 value2 value3 : option Z) (datatype : Z) (body : list byte),
      encode (ControlEvent type value1 value2 value3) = Ok (datatype, body) ->
      datatype = CONTROL /\
      length body = 14%nat /\
      exists t v1 v2 v3 : Z,
        type = Some t /\ value1 = Some v1 /\ value2 = Some v2 /\ value3 = Some v3 /\
        body = be_bytes 2 (t mod 65536) ++ be_bytes 4 (v1 mod 4294967296)
               ++ be_bytes 4 (v2 mod 4294967296) ++ be_bytes 4 (v3 mod 4294967296)).
Proof.
  split; [exact decode_control_short |].
  intros type value1 value2 value3 datatype body. unfold encode.
  change (datatype_of (class_of (ControlEvent type value1 value2 value3)))
    with (Some CONTROL).
  intros Henc. apply bind_Ok_inv in Henc as (buf & Hbuf & [= <- <-]).
  cbn [encode_event] in Hbuf.
  destruct (decide (type = None)) as [-> | Hty]; [discriminate |].
  rewrite bool_decide_eq_false_2 in Hbuf by exact Hty.
  apply bind_Ok_inv in Hbuf as (b1 & H1 & Hbuf).
  apply bind_Ok_inv in Hbuf as (b2 & H2 & Hbuf).
  apply bind_Ok_inv in Hbuf as (b3 & H3 & H4).
  apply write_int_Ok_inv in H1 as (t & -> & _ & ->).
  apply write_int_Ok_inv in H2 as (v1 & -> & _ & ->).
  apply write_int_Ok_inv in H3 as (v2 & -> & _ & ->).
  apply write_int_Ok_inv in H4 as (v3 & -> & _ & ->).
  rewrite (write_at_tail_eq _ empty at_tail_empty). cbn [bdata empty app].
  rewrite !write_at_tail_eq by apply at_tail_mk. cbn [bdata getvalue].
  split; [reflexivity |]. split.
  - now rewrite !length_app, !be_bytes_length.
  - exists t, v1, v2, v3. rewrite <- !app_assoc. now repeat split.
Qed.

End EventFacts.

Section EventRuns.
Import Buffer Event.

(** The one-byte codec reads back what it wrote, unchanged. *)
Lemma byte_codec_laws : AMFLaws byte_codec (fun v => v).
Proof.
  split.
  - intros v bs pre post Hw. cbn in Hw. injection Hw as <-.
    cbn [readElement byte_codec].
    now rewrite (read_inside 1 (length pre) pre [v] post).
  - intros v bs Hw. cbn in Hw. injection Hw as <-. discriminate.
Qed.

(** A ping and an invoke over the one-byte codec make the round trip. *)
Lemma decode_encode_roundtrip_witness :
  let ping : event byte_codec := ControlEvent (amf := byte_codec) (Some PING) (Some 1234) (Some (-1)) (Some (-1)) in
  let call : event byte_codec := Invoke (amf := byte_codec) x61 x01 [x02; x03] in
  (in_domain ping /\ in_domain call) /\
  decode CONTROL [x00; x06; x00; x00; x04; xd2; xff; xff; xff; xff; xff; xff; xff; xff]
  = Ok ping /\
  decode INVOKE [x61; x01; x02; x03] = Ok call.
Proof.
  intros ping call.
  assert (Hping : in_domain ping) by (cbn; unfold PING; lia).
  assert (Hcall : in_domain call) by (repeat constructor; eexists; reflexivity).
  split; [split; assumption |].
  destruct (decode_encode_roundtrip (fun v => v) (laws := byte_codec_laws) ping Hping)
    as (dt1 & body1 & He1 & _ & Hd1).
  destruct (decode_encode_roundtrip (fun v => v) (laws := byte_codec_laws) call Hcall)
    as (dt2 & body2 & He2 & _ & Hd2).
  vm_compute in He1. injection He1 as <- <-.
  vm_compute in He2. injection He2 as <- <-.
  split; [exact Hd1 | exact Hd2].
Defined.

(** C8 as stated: a control body with only the subtype (a ping) and the
    first value is not decoded to an event with [value2 = value3 = -1]; the
    third read runs short and [decode] fails. *)
Lemma control_short_body_refused :
  let body := [x00; x06; x00; x00; x00; x01] in
  decode (amf := byte_codec) CONTROL body = Raise EOFError /\
  ~ (exists type value1 : option Z,
        decode (amf := byte_codec) CONTROL body
        = Ok (ControlEvent type value1 (Some (-1)) (Some (-1)))).
Proof.
  intros body. split; [reflexivity |].
  intros (type & value1 & H). vm_compute in H. discriminate.
Qed.

(** A ping with the default trailing values is written in 14 bytes, and
    its first six bytes alone are refused. *)
Lemma control_event_wire_witness :
  let ping : event byte_codec := new_ControlEvent (amf := byte_codec) (Some PING) in
  encode ping
  = Ok (CONTROL, [x00; x06; x00; x00; x00; x00; xff; xff; xff; xff; xff; xff; xff; xff]) /\
  decode (amf := byte_codec) CONTROL [x00; x06; x00; x00; x00; x00] = Raise EOFError.
Proof.
  intros ping.
  destruct (control_event_wire (amf := byte_codec)) as [Hshort Hlong].
  split.
  - destruct (Hlong (Some PING) (Some 0) (Some (-1)) (Some (-1)) CONTROL
                [x00; x06; x00; x00; x00; x00; xff; xff; xff; xff; xff; xff; xff; xff]
                eq_refl) as (_ & _ & _).
    reflexivity.
  - apply Hshort. cbn. lia.
Defined.

End EventRuns.

(** ** Frame codec: decoder *)

Section DecoderFacts.
Import Buffer Codec.
Local Open Scope nat_scope.

(** [readFrame] on a pinned channel takes as many bytes from the buffer as
    [getBytesAvailableForChannel] counts. *)
Lemma readFrame_drained (d : Decoder) (cid : Z) (c : Channel) :
  currentChannel d = Some cid ->
  dchannels d !! cid = Some c ->
  exists d',
    readFrame d = Ok d' /\
    drained d d' = Nat.min (Nat.min (remaining (dbuffer d)) (bodyRemaining c)) (dframeSize d).
Proof.
  intros Hpin Hc. unfold readFrame. rewrite Hpin, Hc.
  fold (getBytesAvailableForChannel d c).
  assert (Hle : getBytesAvailableForChannel d c <= remaining (dbuffer d))
    by (unfold getBytesAvailableForChannel; lia).
  destruct (Nat.eqb_spec (getBytesAvailableForChannel d c) 0) as [H0 | Hpos].
  - exists d. split; [reflexivity |]. unfold drained. lia.
  - rewrite read_enough by exact Hle. cbn [bind].
    repeat match goal with |- context [if ?b then _ else _] => destruct b end;
      eexists; (split; [reflexivity |]); unfold drained, tell; cbn [dbuffer bpos]; lia.
Qed.

(** C2 on the code.  The frame size is 128; channel 3 is pinned with 100
    bytes of a 300-byte body received.  The buffer holds the 28 bytes that
    complete the frame, the one-byte header of the next chunk and 121
    bytes more.  [readFrame] takes 128 bytes, where
    min(remaining, bodyRemaining, frameSize - bodyReceived mod frameSize)
    is 28: the header byte and 99 bytes of the next chunk end up in the
    body, and what is next in the buffer is not a header. *)
Theorem readFrame_crosses_frame_boundary :
  let h := mkHeader 3 0 300 8 1 in
  let c0 := mkChannel h (repeat x01 100) 200 0 [] in
  let input := repeat x01 28 ++ [xc3] ++ repeat x02 121 in
  let d0 := mkDecoder (of_bytes input) (Some 3%Z) {[ 3%Z := c0 ]} 128 true in
  Nat.min (Nat.min (remaining (dbuffer d0)) (bodyRemaining c0))
          (dframeSize d0 - bodyReceived c0 mod dframeSize d0) = 28 /\
  exists d1 c1,
    readFrame d0 = Ok d1 /\
    drained d0 d1 = 128 /\
    currentChannel d1 = None /\
    dchannels d1 !! 3%Z = Some c1 /\
    bodyBuffer c1 = repeat x01 128 ++ [xc3] ++ repeat x02 99 /\
    drop (tell (dbuffer d1)) (bdata (dbuffer d1)) = repeat x02 22.
Proof.
  intros h c0 input d0. split; [reflexivity |].
  eexists. eexists. split; [vm_compute; reflexivity |].
  repeat split; vm_compute; reflexivity.
Qed.

End DecoderFacts.

(** ** Frame codec: encoder *)

Section EncoderFacts.
Import Buffer Codec.
Local Open Scope nat_scope.
Context {hc : HeaderCodec}.

Lemma seek_tell (b : BufferedByteStream) : seek (tell b) b = b.
Proof. now destruct b. Qed.

Lemma deactivated_not_active (cid : Z) (s : Scheduler) :
  cid ∉ activeChannels (Scheduler_deactivateChannel cid s).
Proof.
  unfold Scheduler_deactivateChannel; cbn [activeChannels].
  rewrite list_elem_of_filter. tauto.
Qed.

Lemma activated_active (cid : Z) (s : Scheduler) :
  cid ∈ activeChannels (Scheduler_activateChannel cid s).
Proof.
  unfold Scheduler_activateChannel. case_bool_decide as Hin; [exact Hin |].
  cbn [activeChannels]. apply elem_of_app. right. apply list_elem_of_singleton. reflexivity.
Qed.

(** [getData] with fewer bytes buffered than asked for: no data, the
    buffer as it was, the context and the channel deactivated. *)
Lemma getData_short (e : Encoder) (cid : Z) (ctx : ChannelContext) (n : nat) :
  channelContext e !! cid = Some ctx ->
  remaining (buffer ctx) < n ->
  getData cid n e
  = Ok (None,
        set_context cid (mkContext (channel ctx) (buffer ctx) false (lastHeader ctx))
          (set_scheduler (Scheduler_deactivateChannel cid (scheduler e))
             (set_context cid ctx e))).
Proof.
  intros Hctx Hn. unfold getData. rewrite Hctx.
  rewrite read_short_of by exact Hn. cbn [bind]. rewrite seek_tell.
  rewrite bool_decide_eq_true_2 by reflexivity. rewrite orb_true_r.
  unfold deactivateChannel. cbn [channelContext set_context buffer channel lastHeader active].
  rewrite lookup_insert_eq. cbn [bind]. destruct ctx; reflexivity.
Qed.

(** C5, as the code has it.  On a tick of the encoder whose scheduler
    selects a channel with fewer bytes in its context buffer than
    min(bodyRemaining, frameSize): nothing is written to the consumer or to
    the encoder's buffer and the bytes stay in the context buffer, but the
    context is marked inactive and the channel is taken off the scheduler;
    the other contexts are untouched.  The next [write] to the context
    puts it back on the scheduler and marks it active again. *)
Theorem encode_short_context_deactivates
    (e : Encoder) (cid : Z) (s : Scheduler) (ctx : ChannelContext) :
  Scheduler_getNextChannel (scheduler e) = (Some cid, s) ->
  channelContext e !! cid = Some ctx ->
  remaining (buffer ctx) < Nat.min (bodyRemaining (channel ctx)) (eframeSize e) ->
  len (ebuffer e) = 0 ->
  exists e',
    encode e = Ok e' /\
    consumer e' = consumer e /\
    ebuffer e' = ebuffer e /\
    channelContext e' !! cid
    = Some (mkContext (channel ctx) (buffer ctx) false (lastHeader ctx)) /\
    (forall other, other <> cid -> channelContext e' !! other = channelContext e !! other) /\
    (cid ∉ activeChannels (scheduler e')) /\
    forall data : list byte,
      exists e'',
        ChannelContext_write cid data e' = Ok e'' /\
        channelContext e'' !! cid
        = Some (mkContext (channel ctx) (append data (buffer ctx)) true (lastHeader ctx)) /\
        cid ∈ activeChannels (scheduler e'').
Proof.
  intros Hnext Hctx Hshort Hempty.
  unfold encode. rewrite Hnext. cbn [set_scheduler channelContext]. rewrite Hctx.
  unfold writeFrame. cbn [currentContext channelContext]. rewrite Hctx.
  unfold getMinimumFrameSize.
  cbn [set_scheduler eframeSize ebuffer scheduler consumer erunning channelContext].
  destruct (Nat.ltb_spec (Nat.min (bodyRemaining (channel ctx)) (eframeSize e)) 1)
    as [Hlt | _]; [lia |].
  cbn [bind]. rewrite (getData_short _ cid ctx) by assumption. cbn [bind].
  cbn [ebuffer set_context set_scheduler]. rewrite Hempty. cbn [Nat.ltb Nat.leb].
  eexists. split; [reflexivity |].
  cbn [consumer ebuffer channelContext scheduler set_context set_scheduler].
  split; [reflexivity |]. split; [reflexivity |].
  split; [apply lookup_insert_eq |].
  split; [intros other Hne; now rewrite !lookup_insert_ne by congruence |].
  split; [apply deactivated_not_active |].
  intros data. unfold ChannelContext_write.
  cbn [channelContext set_context set_scheduler]. rewrite lookup_insert_eq.
  cbn [active negb channel buffer lastHeader].
  unfold activateChannel. cbn [channelContext set_context]. rewrite lookup_insert_eq.
  cbn [bind]. eexists. split; [reflexivity |].
  cbn [channelContext scheduler set_context set_scheduler].
  split; [apply lookup_insert_eq | apply activated_active].
Qed.

End EncoderFacts.

Section EncoderRuns.
Import Buffer Codec.
Local Open Scope nat_scope.

(** C5 as stated: channel 3 is the only active channel, 200 bytes of its
    body remain, the frame size is 128 and its context holds 10 bytes.
    After the tick the context is not active and the scheduler has no
    active channel. *)
Lemma short_context_not_kept_active :
  let h := mkHeader 3 0 200 8 1 in
  let ctx := mkContext (mkChannel h [] 200 0 []) (of_bytes (repeat x01 10)) true None in
  let e := mkEncoder {[ 3%Z := ctx ]} None empty (mkScheduler [3%Z]) [] 128 true in
  exists e',
    encode (hc := plain_header_codec) e = Ok e' /\
    active <$> channelContext e' !! 3%Z = Some false /\
    activeChannels (scheduler e') = [] /\
    consumer e' = [].
Proof.
  intros h ctx e. eexists. split; [vm_compute; reflexivity |].
  repeat split; vm_compute; reflexivity.
Qed.

(** The same tick through the theorem, and the write that reactivates the
    channel. *)
Lemma encode_short_context_deactivates_witness :
  let h := mkHeader 3 0 200 8 1 in
  let ctx := mkContext (mkChannel h [] 200 0 []) (of_bytes (repeat x01 10)) true None in
  let e := mkEncoder {[ 3%Z := ctx ]} None empty (mkScheduler [3%Z]) [] 128 true in
  exists e' e'',
    encode (hc := plain_header_codec) e = Ok e' /\
    consumer e' = [] /\
    active <$> channelContext e' !! 3%Z = Some false /\
    ChannelContext_write 3%Z (repeat x02 118) e' = Ok e'' /\
    active <$> channelContext e'' !! 3%Z = Some true.
Proof.
  intros h ctx e.
  destruct (encode_short_context_deactivates (hc := plain_header_codec) e 3%Z (mkScheduler [3%Z]) ctx)
    as (e' & Hrun & Hcons & _ & Hctx & _ & _ & Hwrite).
  - reflexivity.
  - reflexivity.
  - vm_compute. lia.
  - reflexivity.
  - destruct (Hwrite (repeat x02 118)) as (e'' & Hw & Hctx' & _).
    exists e', e''. rewrite Hctx, Hctx'. now repeat split.
Defined.

End EncoderRuns.

(** ** Named streams: fan-out *)

Section FanOutFacts.
Import Stream.

Lemma notify_each_keeps (attr : string) (args : list arg) (todo : list Subscriber) :
  forall ss : SubscriberStream,
    subscribers (notify_each attr args todo ss).1 = subscribers ss /\
    publisher (notify_each attr args todo ss).1 = publisher ss.
Proof.
  induction todo as [| s rest IH]; intros ss; cbn [notify_each]; [now split |].
  destruct (getattr s attr) as [m |]; [| now split].
  destruct (m args); [now split |].
  destruct (IH (mkSubscriberStream (subscribers ss) (publisher ss)
                  (calls ss ++ [call_of attr args s]))) as [Hs Hp].
  now split.
Qed.

(** All the subscribers of [todo] accept: each is called, in order. *)
Lemma notify_each_accepted (attr : string) (args : list arg) (todo : list Subscriber) :
  Forall (accepts attr args) todo ->
  forall ss : SubscriberStream,
    notify_each attr args todo ss
    = (mkSubscriberStream (subscribers ss) (publisher ss)
         (calls ss ++ map (call_of attr args) todo), None).
Proof.
  induction 1 as [| s rest (m & Hm & Hret) _ IH]; intros ss; cbn [notify_each map].
  - rewrite app_nil_r. now destruct ss.
  - rewrite Hm, Hret, IH. cbn [subscribers publisher calls].
    now rewrite <- app_assoc.
Qed.

(** The first subscriber that raises ends the loop: it and those before it
    have been called, those after it have not. *)
Lemma notify_each_raised (attr : string) (args : list arg) (e : exn)
    (before after : list Subscriber) (s : Subscriber) :
  Forall (accepts attr args) before ->
  raises attr args e s ->
  forall ss : SubscriberStream,
    notify_each attr args (before ++ s :: after) ss
    = (mkSubscriberStream (subscribers ss) (publisher ss)
         (calls ss ++ map (call_of attr args) (before ++ [s])), Some e).
Proof.
  intros Hbefore (m & Hm & Hraise).
  induction Hbefore as [| b rest (mb & Hmb & Hret) _ IH]; intros ss; cbn [notify_each map app].
  - now rewrite Hm, Hraise.
  - rewrite Hmb, Hret, IH. cbn [subscribers publisher calls].
    now rewrite <- app_assoc.
Qed.

(** C9, as the code has it.  Audio and video data go to the subscribers
    in insertion order, each call carrying the bytes and the timestamp.
    While the callbacks return, every subscriber is called.  A callback
    that raises ends the fan-out: the subscribers before it and the
    raising one have been called, those after it are not called, and the
    exception leaves [_notify].  In both cases the list of subscribers and
    the publisher stay as they were. *)
Theorem fan_out_ends_at_raise
    (video : bool) (data : list byte) (time : Z) (ss : SubscriberStream) :
  let attr := if video then "videoDataReceived" else "audioDataReceived" in
  let deliver := if video then videoDataReceived else audioDataReceived in
  let args := [Bytes data; Time time] in
  (Forall (accepts attr args) (subscribers ss) ->
   deliver data time ss
   = (mkSubscriberStream (subscribers ss) (publisher ss)
        (calls ss ++ map (call_of attr args) (subscribers ss)), None)) /\
  (forall (before after : list Subscriber) (s : Subscriber) (e : exn),
      subscribers ss = before ++ s :: after ->
      Forall (accepts attr args) before ->
      raises attr args e s ->
      deliver data time ss
      = (mkSubscriberStream (subscribers ss) (publisher ss)
           (calls ss ++ map (call_of attr args) (before ++ [s])), Some e)).
Proof.
  intros attr deliver args. split.
  - intros Hall. destruct video; subst attr deliver;
      unfold videoDataReceived, audioDataReceived, _notify;
      now rewrite notify_each_accepted.
  - intros before after s e Hsubs Hbefore Hraise.
    destruct video; subst attr deliver;
      unfold videoDataReceived, audioDataReceived, _notify;
      rewrite Hsubs at 1; now rewrite (notify_each_raised _ _ e).
Qed.

(** C10, as the code has it.  [removePublisher] clears the publisher and
    runs [_notify] with [streamUnpublished] and no arguments over the
    subscribers, whatever client it is given and whatever the publisher
    was: the argument is not read.  The subscribers are told in insertion
    order, all of them while the callbacks return; a callback that raises
    ends the notification, the subscribers after it not being told, with
    the publisher cleared all the same. *)
Theorem removePublisher_ignores_argument (p : Client) (ss : SubscriberStream) :
  publisher (removePublisher p ss).1 = None /\
  subscribers (removePublisher p ss).1 = subscribers ss /\
  (forall q : Client, removePublisher q ss = removePublisher p ss) /\
  (forall current : option Client,
      removePublisher p (mkSubscriberStream (subscribers ss) current (calls ss))
      = removePublisher p ss) /\
  (Forall (accepts "streamUnpublished" []) (subscribers ss) ->
   removePublisher p ss
   = (mkSubscriberStream (subscribers ss) None
        (calls ss ++ map (call_of "streamUnpublished" []) (subscribers ss)), None)) /\
  (forall (before after : list Subscriber) (s : Subscriber) (e : exn),
      subscribers ss = before ++ s :: after ->
      Forall (accepts "streamUnpublished" []) before ->
      raises "streamUnpublished" [] e s ->
      removePublisher p ss
      = (mkSubscriberStream (subscribers ss) None
           (calls ss ++ map (call_of "streamUnpublished" []) (before ++ [s])), Some e)).
Proof.
  unfold removePublisher, _notify. cbn [subscribers publisher calls].
  pose proof (notify_each_keeps "streamUnpublished" [] (subscribers ss)
                (mkSubscriberStream (subscribers ss) None (calls ss))) as [Hs Hp].
  repeat split; try assumption.
  - intros Hall. now rewrite notify_each_accepted.
  - intros before after s e Hsubs Hbefore Hraise.
    rewrite Hsubs at 1. now rewrite (notify_each_raised _ _ e).
Qed.

End FanOutFacts.

Section FanOutRuns.
Import Stream.

(** C9 as stated: the third subscriber does not receive the video data
    after the second one has raised. *)
Lemma raising_subscriber_cuts_fan_out :
  let (ss, raised) := videoDataReceived [x01] 40 audience in
  raised = Some RuntimeError /\
  calls ss = [ (1%nat, "videoDataReceived", [Bytes [x01]; Time 40]);
               (2%nat, "videoDataReceived", [Bytes [x01]; Time 40]) ] /\
  ~ In 3%nat (map (fun c : Call => c.1.1) (calls ss)) /\
  map subscriberId (subscribers ss) = [1%nat; 2%nat; 3%nat].
Proof.
  cbn. repeat split. intros [H | [H | []]]; discriminate.
Qed.

(** Video data stops at the second subscriber of [audience], whose
    callback raises; audio data, on which nobody raises, reaches all
    three. *)
Lemma fan_out_ends_at_raise_witness :
  videoDataReceived [x01] 40 audience
  = (mkSubscriberStream [quiet 1; faulty 2; quiet 3] (Some 7%nat)
       [ (1%nat, "videoDataReceived", [Bytes [x01]; Time 40]);
         (2%nat, "videoDataReceived", [Bytes [x01]; Time 40]) ],
     Some RuntimeError) /\
  audioDataReceived [x02] 41 audience
  = (mkSubscriberStream [quiet 1; faulty 2; quiet 3] (Some 7%nat)
       [ (1%nat, "audioDataReceived", [Bytes [x02]; Time 41]);
         (2%nat, "audioDataReceived", [Bytes [x02]; Time 41]);
         (3%nat, "audioDataReceived", [Bytes [x02]; Time 41]) ],
     None).
Proof.
  split.
  - apply (proj2 (fan_out_ends_at_raise true [x01] 40 audience)
             [quiet 1] [quiet 3] (faulty 2) RuntimeError).
    + reflexivity.
    + repeat constructor. eexists. split; reflexivity.
    + eexists. split; reflexivity.
  - apply (proj1 (fan_out_ends_at_raise false [x02] 41 audience)).
    repeat constructor; eexists; split; reflexivity.
Defined.

(** C10 as stated: the second subscriber of [hecklers] raises on
    [streamUnpublished]; the publisher is cleared, and the third subscriber
    is not notified. *)
Lemma removePublisher_stops_at_raise :
  let (ss, failed) := removePublisher 9%nat hecklers in
  failed = Some RuntimeError /\
  publisher ss = None /\
  calls ss = [ (1%nat, "streamUnpublished", []); (2%nat, "streamUnpublished", []) ] /\
  ~ In 3%nat (map (fun c : Call => c.1.1) (calls ss)) /\
  map subscriberId (subscribers ss) = [1%nat; 2%nat; 3%nat].
Proof.
  cbn. repeat split. intros [H | [H | []]]; discriminate.
Qed.

(** Client 9 is not the publisher of the stream (client 7 is); its
    [removePublisher] clears the publisher and notifies both subscribers,
    as that of client 7 does.  On [hecklers] the notification ends at the
    second subscriber. *)
Lemma removePublisher_ignores_argument_witness :
  removePublisher 9%nat listeners
  = (mkSubscriberStream [quiet 1; quiet 3] None
       [ (1%nat, "streamUnpublished", []); (3%nat, "streamUnpublished", []) ], None) /\
  removePublisher 7%nat listeners = removePublisher 9%nat listeners /\
  removePublisher 9%nat hecklers
  = (mkSubscriberStream [quiet 1; grumpy 2; quiet 3] None
       [ (1%nat, "streamUnpublished", []); (2%nat, "streamUnpublished", []) ],
     Some RuntimeError).
Proof.
  destruct (removePublisher_ignores_argument 9%nat listeners)
    as (_ & _ & Hany & _ & Hall & _).
  destruct (removePublisher_ignores_argument 9%nat hecklers)
    as (_ & _ & _ & _ & _ & Hcut).
  split; [| split].
  - apply Hall. repeat constructor; eexists; split; reflexivity.
  - apply Hany.
  - apply (Hcut [quiet 1] [quiet 3] (grumpy 2) RuntimeError).
    + reflexivity.
    + repeat constructor. eexists. split; reflexivity.
    + eexists. split; reflexivity.
Defined.

End FanOutRuns.

(** ** Streams: received events *)

Section ReceivedFacts.
Import Buffer Event Codec Stream.
Context {amf : AMFCodec}.

(** C6, as the code has it.  [eventReceived] calls [setTimestamp] with the
    header's timestamp in its relative mode: whatever becomes of the
    event, the stream's timestamp afterwards is its timestamp before plus
    the timestamp of the header. *)
Theorem eventReceived_adds_timestamp
    (h : Header) (data : list byte) (st : Stream) (p : Protocol) :
  Stream.timestamp (eventReceived h data st p).1.1
  = Stream.timestamp st + Codec.timestamp h.
Proof.
  unfold eventReceived.
  destruct (do _ <- global "event"; get_type_class (datatype h));
    [destruct (decode (datatype h) data) |]; reflexivity.
Qed.

(** C4, as the code has it.  For a datatype that is not in the type map
    and any body, [decode] fails with [DecodeError]; [UnknownEventType] is
    what [get_type_class] fails with. *)
Theorem unknown_datatype_fails (unknown : Z) (body : list byte) :
  TYPE_MAP !! unknown = None ->
  decode unknown body = Raise DecodeError /\
  get_type_class unknown = Raise UnknownEventType.
Proof.
  intros Hmap. unfold decode, get_type_class.
  rewrite Hmap. now split.
Qed.

End ReceivedFacts.

Section ReceivedRuns.
Import Buffer Event Codec Stream.

(** C6 as stated: a stream at timestamp 5 receives an event whose header
    has timestamp 7; afterwards its timestamp is 12, not 7. *)
Lemma timestamp_is_accumulated :
  let h := mkHeader 4 7 1 AUDIO_DATA 1 in
  let st := mkStream 1 5 false None None None in
  let p := mkProtocol 0%nat [] false [] 0 in
  Stream.timestamp (eventReceived (amf := byte_codec) h [x01] st p).1.1 = 12 /\
  Stream.timestamp (eventReceived (amf := byte_codec) h [x01] st p).1.1
  <> Codec.timestamp h.
Proof. cbn. split; [reflexivity | discriminate]. Qed.

(** C4 as stated: datatype 2 is not in the type map, and [decode] of it
    fails with [DecodeError], not with [UnknownEventType]. *)
Lemma unknown_datatype_is_decode_error :
  TYPE_MAP !! 2 = None /\
  decode (amf := byte_codec) 2 [] = Raise DecodeError /\
  decode (amf := byte_codec) 2 [] <> Raise UnknownEventType.
Proof. repeat split. discriminate. Qed.

(** The datatype of FLV data, 0x16, is not in the type map. *)
Lemma unknown_datatype_fails_witness :
  TYPE_MAP !! FLV_DATA = None /\
  decode (amf := byte_codec) FLV_DATA [x46; x4c; x56] = Raise DecodeError /\
  get_type_class FLV_DATA = Raise UnknownEventType.
Proof.
  split; [reflexivity |].
  destruct (unknown_datatype_fails (amf := byte_codec) FLV_DATA [x46; x4c; x56] eq_refl)
    as (Hdec & Hcls).
  split; assumption.
Defined.

End ReceivedRuns.

(** ** Streams: publishing *)

Section PublishFacts.
Import Stream.

Lemma getStream_spec (app name : string) (reg : Registry) :
  publisher (getStream app name reg).1 = publisher_of reg (app, name) /\
  (getStream app name reg).2 !! (app, name) = Some (getStream app name reg).1 /\
  (forall key, publisher_of (getStream app name reg).2 key = publisher_of reg key) /\
  (is_Some (reg !! (app, name)) -> (getStream app name reg).2 = reg).
Proof.
  unfold getStream, publisher_of.
  destruct (reg !! (app, name)) as [ss |] eqn:Hlook; cbn [fst snd].
  - rewrite Hlook. repeat split.
  - repeat split.
    + apply lookup_insert_eq.
    + intros key. destruct (decide (key = (app, name))) as [-> | Hne].
      * now rewrite lookup_insert_eq, Hlook.
      * now rewrite lookup_insert_ne by congruence.
    + intros [x Hx]. discriminate.
Qed.

Lemma setPublisher_publisher (c : Client) (ss : SubscriberStream) :
  publisher (setPublisher c ss).1 = Some c.
Proof.
  unfold setPublisher, _notify. cbn [subscribers].
  now destruct (notify_each_keeps "streamPublished" [] (subscribers ss)
                  (mkSubscriberStream (subscribers ss) (Some c) (calls ss))).
Qed.

Lemma publisher_of_insert (reg : Registry) (key key' : string * string)
    (ss : SubscriberStream) :
  publisher_of (<[key := ss]> reg) key'
  = if decide (key = key') then publisher ss else publisher_of reg key'.
Proof.
  unfold publisher_of. rewrite lookup_insert. now destruct (decide (key = key')).
Qed.

(** [sendStatus] and [writeEvent] look the name [event] up before they
    do anything else. *)
Lemma sendStatus_unbound (code : string) (st : Stream) (p : Protocol) :
  sendStatus code st p = Raise NameError.
Proof. reflexivity. Qed.

Lemma writeEvent_unbound (e : OutEvent) (channelId sid time : Z) (p : Protocol) :
  writeEvent e channelId sid time p = Raise NameError.
Proof. reflexivity. Qed.

(** What [publish] leaves: the stream object is bound to the named stream,
    which is created if it was not there, and nothing else has changed; on
    a named stream that has a publisher [NameError] leaves [publish]. *)
Lemma publish_outcome (env : Environment) (url app : string)
    (reg : Registry) (p : Protocol) (st : Stream) :
  let name := urlparse_path env url in
  let ss := (getStream app name reg).1 in
  publish env url app reg p st
  = mkPublished (getStream app name reg).2 p
      (mkStream (streamId st) (Stream.timestamp st) (published st) (Some (app, name))
         (match publisher ss with Some _ => streamName st | None => Some name end)
         (Some app))
      false
      (match publisher ss with Some _ => Some NameError | None => None end).
Proof.
  cbv zeta. unfold publish, _getStreamName.
  destruct (getStream app (urlparse_path env url) reg) as [ss reg1]. cbn [fst snd].
  destruct (publisher ss) as [q |] eqn:Hpub.
  - rewrite bool_decide_eq_true_2 by eauto. now rewrite sendStatus_unbound.
  - rewrite bool_decide_eq_false_2 by (intros [x Hx]; discriminate).
    destruct (onPublish env app (client p) (urlparse_path env url));
      now rewrite ?sendStatus_unbound.
Qed.

(** C7 on the code.  The module does not bind the name [event], which
    [sendStatus] and the callback of [publish] use.  On a named stream
    that has a publisher, [publish] ends in [NameError] and the status
    NetStream.Publish.BadName is not handed to [writeEvent].  On a named
    stream without publisher the caller does not become the publisher,
    whatever the application hook answers.  No call of [publish] changes
    the publisher of a named stream, hands an event to [writeEvent] or
    marks the stream as published. *)
Theorem publish_sets_no_publisher (env : Environment) (url app : string)
    (reg : Registry) (p : Protocol) (st : Stream) :
  let name := urlparse_path env url in
  let key := (app, name) in
  let r := publish env url app reg p st in
  (forall key' : string * string,
      publisher_of (registry r) key' = publisher_of reg key') /\
  written (protocol r) = written p /\
  published (self r) = published st /\
  raised r = match publisher_of reg key with
             | Some _ => Some NameError
             | None => None
             end.
Proof.
  intros name key r. subst r. rewrite publish_outcome. fold name key.
  destruct (getStream_spec app name reg) as (Hpub & _ & Hothers & _).
  cbn [registry protocol self raised published]. fold key in Hpub. rewrite Hpub.
  repeat split. exact Hothers.
Qed.

End PublishFacts.

Section PublishRuns.
Import Stream.

(** Client 8 publishes the stream "live" of the application "app", which
    client 7 publishes: [NameError] leaves [publish], nothing has been
    handed to [writeEvent] and client 7 stays.  Client 8 publishes the
    free stream "news" with the application accepting: "news" has no
    publisher afterwards. *)
Lemma publish_sets_no_publisher_witness :
  let env := mkEnvironment (fun url => url) (fun _ _ _ => hook_other) in
  let reg : Registry := {[ ("app", "live") := listeners ]} in
  let p := mkProtocol 8%nat [] false [] 0 in
  let st := mkStream 1 0 false None None None in
  raised (publish env "live" "app" reg p st) = Some NameError /\
  written (protocol (publish env "live" "app" reg p st)) = [] /\
  publisher_of (registry (publish env "live" "app" reg p st)) ("app", "live") = Some 7%nat /\
  raised (publish env "news" "app" reg p st) = None /\
  publisher_of (registry (publish env "news" "app" reg p st)) ("app", "news") = None.
Proof.
  intros env reg p st.
  destruct (publish_sets_no_publisher env "live" "app" reg p st) as (Hpub & Hw & _ & Hr).
  destruct (publish_sets_no_publisher env "news" "app" reg p st) as (Hpub' & _ & _ & Hr').
  split; [rewrite Hr; vm_compute; reflexivity |].
  split; [exact Hw |].
  split; [rewrite Hpub; vm_compute; reflexivity |].
  split; [rewrite Hr'; vm_compute; reflexivity |].
  rewrite Hpub'. vm_compute. reflexivity.
Defined.

End PublishRuns.

(** ** Event codec: further properties *)

Section EventMoreFacts.
Import Buffer Event.
Context {amf : AMFCodec}.

Lemma type_map_lookup_search (datatype : Z) (kls : event_class) :
  get_type_class datatype = Ok kls <-> datatype_of kls = Some datatype.
Proof.
  unfold get_type_class. split.
  - destruct (TYPE_MAP !! datatype) as [k |] eqn:Hmap; [| discriminate].
    intros [= ->]. unfold TYPE_MAP in Hmap.
    apply elem_of_list_to_map_2 in Hmap.
    repeat (apply elem_of_cons in Hmap as [[= -> ->] | Hmap]; [vm_compute; reflexivity |]).
    now apply elem_of_nil in Hmap.
  - destruct (datatype_of_class kls) as (dt & Hdt & Hmap).
    rewrite Hdt. intros [= <-]. now rewrite Hmap.
Qed.

(** The type map pairs datatypes and classes one to one: the class that
    [get_type_class] finds for a datatype is the class for which the search
    of [encode] finds that datatype. *)
Theorem type_map_one_to_one (datatype : Z) (kls : event_class) :
  get_type_class datatype = Ok kls <-> datatype_of kls = Some datatype.
Proof. exact (type_map_lookup_search datatype kls). Qed.

Lemma be_value_bound (bs : list byte) :
  0 <= be_value bs < 2 ^ (8 * Z.of_nat (length bs)).
Proof.
  induction bs as [| b bs IH] using rev_ind; [cbn; lia |].
  rewrite be_value_snoc, length_app. cbn [length].
  replace (8 * Z.of_nat (length bs + 1)) with (8 * Z.of_nat (length bs) + 8) by lia.
  rewrite Z.pow_add_r by lia. change (2 ^ 8) with 256.
  pose proof (Byte.to_N_bounded b). unfold Z_of_byte. nia.
Qed.

Lemma byte_of_Z_of_byte (z : Z) (b : byte) :
  z mod 256 = Z_of_byte b -> byte_of_Z z = b.
Proof.
  intros Hz. unfold byte_of_Z. rewrite Hz. unfold Z_of_byte.
  now rewrite N2Z.id, Byte.of_to_N.
Qed.

Lemma be_bytes_be_value (bs : list byte) : be_bytes (length bs) (be_value bs) = bs.
Proof.
  induction bs as [| b bs IH] using rev_ind; [reflexivity |].
  rewrite length_app, Nat.add_comm. cbn [length Nat.add be_bytes].
  rewrite be_value_snoc.
  pose proof (Byte.to_N_bounded b) as Hb.
  assert (Hrange : 0 <= Z_of_byte b < 256) by (unfold Z_of_byte; lia).
  rewrite Z.div_add_l, (Z.div_small (Z_of_byte b)), Z.add_0_r, IH by lia.
  f_equal. f_equal. apply byte_of_Z_of_byte.
  rewrite Z.add_comm, Z.mod_add by lia. now apply Z.mod_small.
Qed.

Lemma read_Ok_inv (n : nat) (b b' : BufferedByteStream) (bs : list byte) :
  read n b = Ok (bs, b') ->
  (n <= remaining b)%nat /\
  bs = take n (drop (bpos b) (bdata b)) /\
  length bs = n /\
  b' = mkBuffer (bdata b) (bpos b + n).
Proof.
  unfold read. destruct (Nat.ltb_spec (remaining b) n) as [| Hle]; [discriminate |].
  intros [= <- <-]. repeat split; [exact Hle |].
  unfold remaining in Hle. rewrite length_take, length_drop. lia.
Qed.

Lemma read_unsigned_Ok_inv (n : nat) (b b' : BufferedByteStream) (z : Z) :
  read_unsigned n b = Ok (z, b') ->
  (n <= remaining b)%nat /\
  0 <= z < 2 ^ (8 * Z.of_nat n) /\
  be_bytes n z = take n (drop (bpos b) (bdata b)) /\
  b' = mkBuffer (bdata b) (bpos b + n).
Proof.
  unfold read_unsigned. intros H.
  apply bind_Ok_inv in H as ([bs b1] & Hread & [= <- <-]).
  apply read_Ok_inv in Hread as (Hle & Hbs & Hlen & ->).
  pose proof (be_value_bound bs) as Hbound. rewrite Hlen in Hbound.
  repeat split; try lia.
  rewrite <- Hbs, <- Hlen. apply be_bytes_be_value.
Qed.

Lemma read_signed_Ok_inv (n : nat) (b b' : BufferedByteStream) (z : Z) :
  (0 < n)%nat ->
  read_signed n b = Ok (z, b') ->
  (n <= remaining b)%nat /\
  - (2 ^ (8 * Z.of_nat n) / 2) <= z <= 2 ^ (8 * Z.of_nat n) / 2 - 1 /\
  be_bytes n (z mod 2 ^ (8 * Z.of_nat n)) = take n (drop (bpos b) (bdata b)) /\
  b' = mkBuffer (bdata b) (bpos b + n).
Proof.
  unfold read_signed. intros Hn H.
  apply bind_Ok_inv in H as ([bs b1] & Hread & [= <- <-]).
  apply read_Ok_inv in Hread as (Hle & Hbs & Hlen & ->).
  pose proof (be_value_bound bs) as Hbound. rewrite Hlen in Hbound.
  set (m := 2 ^ (8 * Z.of_nat n)) in *.
  assert (Heven : m = 2 * (m / 2)).
  { subst m. replace (8 * Z.of_nat n) with (1 + (8 * Z.of_nat n - 1)) by lia.
    rewrite Z.pow_add_r by lia. change (2 ^ 1) with 2.
    rewrite (Z.mul_comm 2), Z.div_mul by lia. lia. }
  assert (Hmod : (if be_value bs <? m / 2 then be_value bs else be_value bs - m) mod m
                 = be_value bs).
  { destruct (Z.ltb_spec (be_value bs) (m / 2)).
    - apply Z.mod_small. lia.
    - rewrite <- (Z.mod_add _ 1 m) by lia.
      replace (be_value bs - m + 1 * m) with (be_value bs) by lia.
      apply Z.mod_small. lia. }
  split; [exact Hle |]. split; [destruct (Z.ltb_spec (be_value bs) (m / 2)); lia |].
  split; [| reflexivity].
  rewrite Hmod, <- Hbs, <- Hlen. apply be_bytes_be_value.
Qed.

Lemma take_take_drop (n k : nat) (l : list byte) :
  take n l ++ take k (drop n l) = take (n + k) l.
Proof.
  revert l. induction n as [| n IH]; intros [| x l]; cbn; try reflexivity.
  - now rewrite take_nil.
  - now rewrite IH.
Qed.

Local Ltac read_step :=
  match goal with
  | |- context [read ?n (mkBuffer ?d ?p)] =>
      destruct (Nat.le_gt_cases (p + n) (length d));
      [ rewrite (read_enough n (mkBuffer d p)) by (unfold remaining; cbn [bdata bpos]; lia)
      | rewrite (read_short_of n (mkBuffer d p)) by (unfold remaining; cbn [bdata bpos]; lia) ];
      cbn [bind bdata bpos]
  end.

Local Ltac eof_step :=
  match goal with
  | |- context [at_eof (mkBuffer ?d ?p)] =>
      unfold at_eof; cbn [bdata bpos];
      destruct (Nat.leb_spec (length d) p); cbn [negb]
  end.

Lemma decode_by_body_size (datatype : Z) (kls : event_class) (n : nat) (body : list byte) :
  TYPE_MAP !! datatype = Some kls ->
  body_size kls = Some n ->
  ((length body < n)%nat -> decode datatype body = Raise EOFError) /\
  ((n < length body)%nat -> decode datatype body = Raise TrailingDataError) /\
  (length body = n -> exists e, decode datatype body = Ok e /\ class_of e = kls).
Proof.
  intros Hmap Hsize. unfold decode. rewrite Hmap.
  destruct kls; cbn in Hsize; try discriminate; injection Hsize as <-;
    cbn [decode_event];
    unfold read_ulong, read_uchar, read_short, read_long, read_unsigned, read_signed, of_bytes;
    repeat read_step; try eof_step;
    (split; [| split]); intros Hlen; try lia; try reflexivity;
    eexists; split; reflexivity.
Qed.

(** The classes with a body of fixed size accept exactly that size: on a
    shorter body a read runs short and the buffer's exception for that
    leaves [decode]; a longer one has trailing data. *)
Theorem decode_fixed_size (datatype : Z) (kls : event_class) (n : nat) (body : list byte) :
  TYPE_MAP !! datatype = Some kls ->
  body_size kls = Some n ->
  ((length body < n)%nat ->
   exists e, decode datatype body = Raise e /\ short_read e = true) /\
  ((n < length body)%nat -> decode datatype body = Raise TrailingDataError) /\
  (length body = n -> exists e, decode datatype body = Ok e /\ class_of e = kls).
Proof.
  intros Hmap Hsize.
  destruct (decode_by_body_size datatype kls n body Hmap Hsize) as (Hshort & Hlong & Hfit).
  split; [| split; assumption].
  intros Hlen. exists EOFError. split; [exact (Hshort Hlen) | reflexivity].
Qed.

Lemma decode_streaming_total (body : list byte) :
  decode AUDIO_DATA body = Ok (AudioData (Some body)) /\
  decode VIDEO_DATA body = Ok (VideoData (Some body)).
Proof.
  unfold decode.
  change (TYPE_MAP !! AUDIO_DATA) with (Some AudioData_class).
  change (TYPE_MAP !! VIDEO_DATA) with (Some VideoData_class).
  cbn [decode_event read_all of_bytes bdata bpos bind drop Nat.max].
  unfold at_eof; cbn [bdata bpos]. now rewrite Nat.leb_refl.
Qed.

(** Audio and video data take any body, the empty one too, as it is. *)
Theorem decode_streaming_any_body (body : list byte) :
  decode AUDIO_DATA body = Ok (AudioData (Some body)) /\
  decode VIDEO_DATA body = Ok (VideoData (Some body)).
Proof. exact (decode_streaming_total body). Qed.

Lemma write_elements_Ok_inv (es : list amf_value) :
  forall buf buf' : BufferedByteStream,
    write_elements es buf = Ok buf' ->
    Forall (fun v => exists bs, writeElement v = Ok bs) es.
Proof.
  induction es as [| e es IH]; intros buf buf' H; [constructor |].
  cbn [write_elements] in H. apply bind_Ok_inv in H as (bs & Hbs & H).
  constructor; [eauto | eapply IH; eassumption].
Qed.

(** [encode] succeeds only on the encodable domain, and the datatype it
    returns is the one of the event's class. *)
Theorem encode_Ok_in_domain (e : event amf) (datatype : Z) (body : list byte) :
  encode e = Ok (datatype, body) ->
  in_domain e /\ get_type_class datatype = Ok (class_of e).
Proof.
  unfold encode. intros H.
  destruct (datatype_of (class_of e)) as [dt |] eqn:Hdt; [| discriminate].
  apply bind_Ok_inv in H as (buf & Hbuf & [= <- <-]).
  split; [| now apply type_map_lookup_search].
  clear Hdt.
  destruct e as [size | bytes | type value1 value2 value3 | bandwidth
                | bandwidth extra | name id argv | name id argv | data | data];
    cbn [encode_event in_domain] in *;
    repeat match type of Hbuf with
      | (if bool_decide (?v = None) then _ else _) = _ =>
          destruct v; [rewrite bool_decide_eq_false_2 in Hbuf by discriminate
                      | discriminate]
      | bind _ _ = Ok _ => apply bind_Ok_inv in Hbuf as (? & ? & Hbuf)
      end;
    repeat match goal with
      | H : type_error_is_encode_error (_ _ _) = Ok _ |- _ =>
          let Heq := fresh "Heq" in
          apply write_int_Ok_inv in H as (? & Heq & ? & _);
          first [injection Heq as <- | rewrite Heq in *]
      end;
    cbn [in_range]; try (repeat split; lia).
  - match goal with H : write_elements [name; id] _ = Ok _ |- _ =>
      apply write_elements_Ok_inv in H as Hhead end.
    apply write_elements_Ok_inv in Hbuf.
    inversion Hhead as [| ? ? Hn Hrest]; subst. inversion Hrest; subst.
    repeat constructor; assumption.
  - match goal with H : write_elements [name; id] _ = Ok _ |- _ =>
      apply write_elements_Ok_inv in H as Hhead end.
    apply write_elements_Ok_inv in Hbuf.
    inversion Hhead as [| ? ? Hn Hrest]; subst. inversion Hrest; subst.
    repeat constructor; assumption.
  - destruct data; [discriminate | discriminate Hbuf].
  - destruct data; [discriminate | discriminate Hbuf].
Qed.

Lemma at_eof_inv (data : list byte) (pos : nat) :
  negb (at_eof (mkBuffer data pos)) = false -> (length data <= pos)%nat.
Proof.
  unfold at_eof; cbn [bdata bpos].
  destruct (Nat.leb_spec (length data) pos); [trivial | discriminate].
Qed.

Lemma write_int_bytes (n : nat) (lo hi z : Z) (bs : list byte) (b : BufferedByteStream) :
  at_tail b -> lo <= z <= hi ->
  be_bytes n (z mod 2 ^ (8 * Z.of_nat n)) = bs ->
  type_error_is_encode_error (write_int n lo hi (Some z) b)
  = Ok (mkBuffer (bdata b ++ bs) (length (bdata b ++ bs))).
Proof.
  intros Ht Hz <-. now rewrite write_int_in_range.
Qed.

(** A body that [decode] accepts for a class other than [Notify] and
    [Invoke] is the body that [encode] gives for the decoded event, with
    the same datatype. *)
Theorem encode_decode_body (datatype : Z) (body : list byte) (e : event amf) :
  decode datatype body = Ok e ->
  is_amf_class (class_of e) = false ->
  encode e = Ok (datatype, body).
Proof.
  unfold decode. destruct (TYPE_MAP !! datatype) as [kls |] eqn:Hmap; [| discriminate].
  intros H Hamf. apply bind_Ok_inv in H as ([e' buf] & Hev & H).
  destruct (negb (at_eof buf)) eqn:Heof; [discriminate |]. injection H as ->.
  assert (Hdt : datatype_of kls = Some datatype).
  { apply type_map_lookup_search. unfold get_type_class. now rewrite Hmap. }
  destruct kls; cbn [decode_event] in Hev;
    unfold read_ulong, read_uchar, read_short, read_long, of_bytes in Hev.
  - apply bind_Ok_inv in Hev as ([z b] & Hr & [= <- <-]).
    apply read_unsigned_Ok_inv in Hr as (Hle & Hz & Hbytes & ->).
    apply at_eof_inv in Heof. unfold remaining in Hle. cbn [bdata bpos] in *.
    unfold encode. cbn [class_of]. rewrite Hdt. cbn [encode_event].
    rewrite bool_decide_eq_false_2 by discriminate.
    unfold write_ulong.
    rewrite (write_int_bytes 4 0 4294967295 z (take 4 body) empty at_tail_empty);
      [| change (2 ^ (8 * Z.of_nat 4)) with 4294967296 in Hz; lia
       | rewrite Z.mod_small by exact Hz; exact Hbytes].
    cbn [bind getvalue bdata empty app]. now rewrite take_ge by lia.
  - apply bind_Ok_inv in Hev as ([z b] & Hr & [= <- <-]).
    apply read_unsigned_Ok_inv in Hr as (Hle & Hz & Hbytes & ->).
    apply at_eof_inv in Heof. unfold remaining in Hle. cbn [bdata bpos] in *.
    unfold encode. cbn [class_of]. rewrite Hdt. cbn [encode_event].
    rewrite bool_decide_eq_false_2 by discriminate.
    unfold write_ulong.
    rewrite (write_int_bytes 4 0 4294967295 z (take 4 body) empty at_tail_empty);
      [| change (2 ^ (8 * Z.of_nat 4)) with 4294967296 in Hz; lia
       | rewrite Z.mod_small by exact Hz; exact Hbytes].
    cbn [bind getvalue bdata empty app]. now rewrite take_ge by lia.
  - apply bind_Ok_inv in Hev as ([t b] & Ht & Hev).
    apply bind_Ok_inv in Hev as ([v1 b1] & H1 & Hev).
    apply bind_Ok_inv in Hev as ([v2 b2] & H2 & Hev).
    apply bind_Ok_inv in Hev as ([v3 b3] & H3 & [= <- <-]).
    apply read_signed_Ok_inv in Ht as (Hle0 & Hrt & Hbt & ->); [| lia].
    apply read_signed_Ok_inv in H1 as (Hle1 & Hr1 & Hb1 & ->); [| lia].
    apply read_signed_Ok_inv in H2 as (Hle2 & Hr2 & Hb2 & ->); [| lia].
    apply read_signed_Ok_inv in H3 as (Hle3 & Hr3 & Hb3 & ->); [| lia].
    apply at_eof_inv in Heof. unfold remaining in *. cbn [bdata bpos] in *.
    change (2 ^ (8 * Z.of_nat 2) / 2) with 32768 in Hrt.
    change (2 ^ (8 * Z.of_nat 4) / 2) with 2147483648 in Hr1, Hr2, Hr3.
    unfold encode. cbn [class_of]. rewrite Hdt. cbn [encode_event].
    rewrite bool_decide_eq_false_2 by discriminate.
    unfold write_short, write_long.
    cbn [Nat.add drop] in *.
    rewrite (write_int_bytes 2 (-32768) 32767 t _ empty at_tail_empty ltac:(lia) Hbt).
    cbn [bind bdata empty app].
    rewrite (write_int_bytes 4 (-2147483648) 2147483647 v1 _ _ (at_tail_mk _)
               ltac:(lia) Hb1).
    cbn [bind bdata].
    rewrite (write_int_bytes 4 (-2147483648) 2147483647 v2 _ _ (at_tail_mk _)
               ltac:(lia) Hb2).
    cbn [bind bdata].
    rewrite (write_int_bytes 4 (-2147483648) 2147483647 v3 _ _ (at_tail_mk _)
               ltac:(lia) Hb3).
    cbn [bind bdata getvalue].
    rewrite !take_take_drop. cbn [Nat.add]. now rewrite take_ge by lia.
  - apply bind_Ok_inv in Hev as ([z b] & Hr & [= <- <-]).
    apply read_unsigned_Ok_inv in Hr as (Hle & Hz & Hbytes & ->).
    apply at_eof_inv in Heof. unfold remaining in Hle. cbn [bdata bpos] in *.
    unfold encode. cbn [class_of]. rewrite Hdt. cbn [encode_event].
    rewrite bool_decide_eq_false_2 by discriminate.
    unfold write_ulong.
    rewrite (write_int_bytes 4 0 4294967295 z (take 4 body) empty at_tail_empty);
      [| change (2 ^ (8 * Z.of_nat 4)) with 4294967296 in Hz; lia
       | rewrite Z.mod_small by exact Hz; exact Hbytes].
    cbn [bind getvalue bdata empty app]. now rewrite take_ge by lia.
  - apply bind_Ok_inv in Hev as ([z b] & Hr & Hev).
    apply bind_Ok_inv in Hev as ([x b1] & Hx & [= <- <-]).
    apply read_unsigned_Ok_inv in Hr as (Hle & Hz & Hbytes & ->).
    apply read_unsigned_Ok_inv in Hx as (Hle1 & Hxr & Hbx & ->).
    apply at_eof_inv in Heof. unfold remaining in *. cbn [bdata bpos] in *.
    change (2 ^ (8 * Z.of_nat 4)) with 4294967296 in Hz.
    change (2 ^ (8 * Z.of_nat 1)) with 256 in Hxr.
    unfold encode. cbn [class_of]. rewrite Hdt. cbn [encode_event].
    rewrite !bool_decide_eq_false_2 by discriminate.
    unfold write_ulong, write_uchar.
    rewrite (write_int_bytes 4 0 4294967295 z (take 4 body) empty at_tail_empty);
      [| lia | change (2 ^ (8 * Z.of_nat 4)) with 4294967296;
               rewrite Z.mod_small by exact Hz; exact Hbytes].
    cbn [bind bdata empty app].
    rewrite (write_int_bytes 1 0 255 x (take 1 (drop 4 body)) _ (at_tail_mk _));
      [| lia | change (2 ^ (8 * Z.of_nat 1)) with 256;
               rewrite Z.mod_small by exact Hxr; exact Hbx].
    cbn [bind bdata getvalue].
    rewrite take_take_drop. cbn [Nat.add]. now rewrite take_ge by lia.
  - apply bind_Ok_inv in Hev as ([? ?] & _ & Hev).
    apply bind_Ok_inv in Hev as ([? ?] & _ & Hev).
    apply bind_Ok_inv in Hev as ([? ?] & _ & Hev).
    injection Hev as <- _. discriminate Hamf.
  - apply bind_Ok_inv in Hev as ([? ?] & _ & Hev).
    apply bind_Ok_inv in Hev as ([? ?] & _ & Hev).
    apply bind_Ok_inv in Hev as ([? ?] & _ & Hev).
    injection Hev as <- _. discriminate Hamf.
  - cbn [read_all bdata bpos drop] in Hev. injection Hev as <- _.
    unfold encode. cbn [class_of]. rewrite Hdt. cbn [encode_event].
    change (drop 0 body) with body.
    rewrite (write_at_tail_eq body empty at_tail_empty). reflexivity.
  - cbn [read_all bdata bpos drop] in Hev. injection Hev as <- _.
    unfold encode. cbn [class_of]. rewrite Hdt. cbn [encode_event].
    change (drop 0 body) with body.
    rewrite (write_at_tail_eq body empty at_tail_empty). reflexivity.
Qed.

End EventMoreFacts.

(** ** Frame codec: the decoder's tick *)

Section DecoderTickFacts.
Import Buffer Codec.
Local Open Scope nat_scope.
Context {env : DecoderEnv}.

(** [readFrame] on a pinned channel always returns.  It takes no more
    bytes than are buffered, than the body still lacks, or than the frame
    size; it leaves the bytes of the buffer in place and the other
    channels alone; afterwards the pin is the same channel or none. *)
Theorem readFrame_on_pin (d : Decoder) (cid : Z) (c : Channel) :
  currentChannel d = Some cid ->
  dchannels d !! cid = Some c ->
  exists d',
    readFrame d = Ok d' /\
    drained d d' <= remaining (dbuffer d) /\
    drained d d' <= bodyRemaining c /\
    drained d d' <= dframeSize d /\
    bdata (dbuffer d') = bdata (dbuffer d) /\
    (forall other, other <> cid -> dchannels d' !! other = dchannels d !! other) /\
    (currentChannel d' = None \/ currentChannel d' = Some cid) /\
    dframeSize d' = dframeSize d.
Proof.
  intros Hpin Hc. unfold readFrame. rewrite Hpin, Hc.
  fold (getBytesAvailableForChannel d c).
  assert (Hle : getBytesAvailableForChannel d c <= remaining (dbuffer d))
    by (unfold getBytesAvailableForChannel; lia).
  assert (Hav : getBytesAvailableForChannel d c
                = Nat.min (Nat.min (remaining (dbuffer d)) (bodyRemaining c)) (dframeSize d))
    by reflexivity.
  destruct (Nat.eqb_spec (getBytesAvailableForChannel d c) 0) as [H0 | Hpos].
  - exists d. unfold drained. repeat split; try lia. now right.
  - rewrite read_enough by exact Hle. cbn [bind].
    repeat match goal with |- context [if ?b then _ else _] => destruct b end;
      eexists; (split; [reflexivity |]); unfold drained, tell;
      cbn [dbuffer bpos bdata dchannels currentChannel dframeSize];
      (repeat split; try lia;
       try (intros other Hne; now rewrite lookup_insert_ne by congruence);
       try (now left); try (now right)).
Qed.

Lemma canContinue_enough (d : Decoder) :
  1 <= remaining (dbuffer d) -> canContinue 1 d = (true, d).
Proof.
  intros H. unfold canContinue.
  destruct (Nat.ltb_spec (remaining (dbuffer d)) 1); [lia |].
  destruct (Nat.eqb_spec (remaining (dbuffer d)) 0); [lia |].
  destruct (Nat.leb_spec 1 (remaining (dbuffer d))); [reflexivity | lia].
Qed.

Lemma canContinue_exhausted (d : Decoder) :
  remaining (dbuffer d) = 0 -> canContinue 1 d = (false, Decoder_pause d).
Proof. intros H. unfold canContinue. now rewrite H. Qed.

(** A tick that cannot make progress pauses the job and loses no byte:
    with nothing to read the decoder is otherwise as it was, and with no
    pinned channel and a header that is not complete yet (the header codec
    runs out of bytes) all the bytes stay buffered, the cursor at their
    start. *)
Theorem decode_without_progress (d : Decoder) :
  (remaining (dbuffer d) = 0 -> Decoder_decode d = Ok (Decoder_pause d)) /\
  (currentChannel d = None ->
   1 <= remaining (dbuffer d) ->
   decodeHeader (seek 0 (dbuffer d)) = Raise EOFError ->
   Decoder_decode d
   = Ok (mkDecoder (mkBuffer (bdata (dbuffer d)) 0) None (dchannels d) (dframeSize d) false)).
Proof.
  split.
  - intros H. unfold Decoder_decode. now rewrite canContinue_exhausted.
  - intros Hpin Hrem Heof. unfold Decoder_decode.
    rewrite canContinue_enough by exact Hrem. cbn [negb].
    unfold _decode. cbn [currentChannel set_dbuffer]. rewrite Hpin. cbn [bind].
    rewrite canContinue_enough
      by (unfold remaining in *; cbn [set_dbuffer dbuffer seek bdata bpos]; lia).
    cbn [negb]. unfold readHeader. cbn [dbuffer set_dbuffer]. rewrite Heof. cbn [bind].
    unfold set_dbuffer, Decoder_pause, consume, seek, tell.
    cbn [dbuffer currentChannel dchannels dframeSize drunning bdata bpos].
    now rewrite Hpin.
Qed.

(** A tick on an unpinned decoder whose buffer starts with a complete
    header: the channel of the header is opened, one frame (at most what
    is buffered behind the header, what the body lacks and the frame size)
    goes to it, and exactly the header and the frame leave the buffer;
    the other channels are untouched. *)
Theorem decode_header_and_frame (d : Decoder) (h : Header) (n : nat) :
  currentChannel d = None ->
  1 <= remaining (dbuffer d) ->
  decodeHeader (seek 0 (dbuffer d)) = Ok (h, n) ->
  n <= length (bdata (dbuffer d)) ->
  let data := bdata (dbuffer d) in
  let c := openChannel h (dchannels d !! channelId h) in
  let k := Nat.min (Nat.min (length data - n) (bodyRemaining c)) (dframeSize d) in
  exists d',
    Decoder_decode d = Ok d' /\
    dbuffer d' = mkBuffer (drop (n + k) data) 0 /\
    dchannels d' !! channelId h
    = Some (if Nat.eqb k 0 then c else Channel_write (dframeSize d) (take k (drop n data)) c) /\
    (forall other, other <> channelId h -> dchannels d' !! other = dchannels d !! other) /\
    (currentChannel d' = None \/ currentChannel d' = Some (channelId h)).
Proof.
  intros Hpin Hrem Hhdr Hn data c k. unfold Decoder_decode.
  rewrite canContinue_enough by exact Hrem. cbn [negb].
  unfold _decode. cbn [currentChannel set_dbuffer]. rewrite Hpin. cbn [bind].
  rewrite canContinue_enough
    by (unfold remaining in *; cbn [set_dbuffer dbuffer seek bdata bpos]; lia).
  cbn [negb]. unfold readHeader. cbn [dbuffer set_dbuffer]. rewrite Hhdr. cbn [bind].
  unfold set_dbuffer, seek, tell.
  cbn [dbuffer dchannels dframeSize drunning currentChannel bdata bpos Nat.add].
  fold data c.
  unfold readFrame. cbn [currentChannel dchannels]. rewrite lookup_insert_eq.
  unfold getBytesAvailableForChannel, remaining. cbn [dbuffer bdata bpos dframeSize].
  fold data. fold k.
  destruct (Nat.eqb_spec k 0) as [Hk | Hk].
  - eexists. split; [reflexivity |].
    cbn [set_dbuffer dbuffer dchannels currentChannel consume bdata bpos].
    rewrite Hk, Nat.add_0_r, lookup_insert_eq. repeat split.
    + intros other Hne. now rewrite lookup_insert_ne by congruence.
    + now right.
  - rewrite read_enough by (unfold remaining; cbn [bdata bpos]; lia).
    cbn [bind bdata bpos dframeSize dchannels].
    repeat match goal with |- context [if ?b then _ else _] => destruct b end;
      eexists; (split; [reflexivity |]);
      cbn [set_dbuffer dbuffer dchannels currentChannel consume bdata bpos];
      rewrite lookup_insert_eq;
      (repeat split;
       try (intros other Hne; now rewrite !lookup_insert_ne by congruence);
       try (now left); try (now right)).
Qed.

(** [dataReceived] puts the data behind the bytes that are buffered,
    wherever the cursor was: no buffered byte is overwritten, and nothing
    else of the decoder changes. *)
Theorem Decoder_dataReceived_appends (data : list byte) (d : Decoder) :
  bdata (dbuffer (Decoder_dataReceived data d)) = bdata (dbuffer d) ++ data /\
  currentChannel (Decoder_dataReceived data d) = currentChannel d /\
  dchannels (Decoder_dataReceived data d) = dchannels d /\
  dframeSize (Decoder_dataReceived data d) = dframeSize d /\
  drunning (Decoder_dataReceived data d) = drunning d.
Proof.
  unfold Decoder_dataReceived, set_dbuffer.
  cbn [dbuffer currentChannel dchannels dframeSize drunning].
  rewrite write_at_tail_eq by reflexivity. now repeat split.
Qed.

End DecoderTickFacts.

(** ** Frame codec: the encoder's tick *)

Section EncoderTickFacts.
Import Buffer Codec.
Local Open Scope nat_scope.
Context {hc : HeaderCodec}.

Lemma write_len (data : list byte) (b : BufferedByteStream) :
  length data <= len (write data b).
Proof. unfold len, write; cbn [bdata]. rewrite !length_app. lia. Qed.

(** [getData] with enough bytes buffered: the first [n] bytes from the
    cursor, which leave the buffer; the scheduler and the [active] flag
    stay. *)
Lemma getData_enough (e : Encoder) (cid : Z) (ctx : ChannelContext) (n : nat) :
  channelContext e !! cid = Some ctx ->
  1 <= n -> n <= remaining (buffer ctx) ->
  getData cid n e
  = Ok (Some (take n (drop (bpos (buffer ctx)) (bdata (buffer ctx)))),
        set_context cid
          (mkContext (channel ctx)
             (mkBuffer (drop (bpos (buffer ctx) + n) (bdata (buffer ctx))) 0)
             (active ctx) (lastHeader ctx))
          (set_context cid
             (mkContext (channel ctx) (mkBuffer (bdata (buffer ctx)) (bpos (buffer ctx) + n))
                (active ctx) (lastHeader ctx)) e)).
Proof.
  intros Hctx H1 Hn. unfold getData. rewrite Hctx.
  rewrite read_enough by exact Hn. cbn [bind buffer].
  rewrite bool_decide_eq_false_2 by discriminate.
  unfold len; cbn [bdata].
  destruct (Nat.eqb_spec (length (bdata (buffer ctx))) 0) as [H0 | _];
    [unfold remaining in Hn; lia |].
  reflexivity.
Qed.

(** A tick of the encoder on a channel whose context holds at least one
    frame fill, min(bodyRemaining, frameSize) >= 1 bytes: the consumer gets
    one string, the header (relative to the last header written on the
    channel, absolute if there was none) followed by exactly that many
    bytes, which leave the context buffer; the channel's header becomes
    the last header written; the encoder's buffer is empty again. *)
Theorem encode_writes_frame
    (e : Encoder) (cid : Z) (s : Scheduler) (ctx : ChannelContext) :
  Scheduler_getNextChannel (scheduler e) = (Some cid, s) ->
  channelContext e !! cid = Some ctx ->
  let n := Nat.min (bodyRemaining (channel ctx)) (eframeSize e) in
  let data := take n (drop (bpos (buffer ctx)) (bdata (buffer ctx))) in
  1 <= n ->
  n <= remaining (buffer ctx) ->
  exists e',
    encode e = Ok e' /\
    consumer e'
    = consumer e ++ [bdata (write data (encodeHeader (ebuffer e) (getRelativeHeader ctx)))] /\
    length data = n /\
    n <= eframeSize e /\
    ebuffer e' = empty /\
    channelContext e' !! cid
    = Some (mkContext (channel ctx)
              (mkBuffer (drop (bpos (buffer ctx) + n) (bdata (buffer ctx))) 0)
              (active ctx) (Some (header (channel ctx)))) /\
    (forall other, other <> cid -> channelContext e' !! other = channelContext e !! other) /\
    scheduler e' = s.
Proof.
  intros Hnext Hctx n data H1 Hn.
  unfold encode. rewrite Hnext. cbn [set_scheduler channelContext]. rewrite Hctx.
  unfold writeFrame. cbn [currentContext channelContext]. rewrite Hctx.
  unfold getMinimumFrameSize.
  cbn [set_scheduler eframeSize ebuffer scheduler consumer erunning channelContext].
  fold n.
  destruct (Nat.ltb_spec n 1) as [Hlt | _]; [lia |].
  cbn [bind]. rewrite (getData_enough _ cid ctx n) by assumption. cbn [bind]. fold data.
  cbn [channelContext set_context]. rewrite lookup_insert_eq.
  cbn [channel buffer active lastHeader ebuffer set_context set_ebuffer].
  match goal with
  | |- context [getRelativeHeader ?c] =>
      change (getRelativeHeader c) with (getRelativeHeader ctx)
  end.
  cbn [bind ebuffer set_ebuffer].
  assert (Hlen : length data = n).
  { subst data. unfold remaining in Hn. rewrite length_take, length_drop. lia. }
  destruct (Nat.ltb_spec 0
              (len (write data (encodeHeader (ebuffer e) (getRelativeHeader ctx)))))
    as [_ | Hzero]; [| pose proof (write_len data
                          (encodeHeader (ebuffer e) (getRelativeHeader ctx))); lia].
  eexists. split; [reflexivity |].
  cbn [consumer ebuffer channelContext scheduler getvalue set_ebuffer set_context].
  split; [reflexivity |]. split; [exact Hlen |]. split; [lia |]. split; [reflexivity |].
  split; [apply lookup_insert_eq |]. split; [| reflexivity].
  intros other Hne. now rewrite !lookup_insert_ne by congruence.
Qed.

Lemma getData_keeps (e e' : Encoder) (cid : Z) (n : nat) (r : option (list byte)) :
  getData cid n e = Ok (r, e') ->
  consumer e' = consumer e /\ ebuffer e' = ebuffer e /\
  (forall data, r = Some data -> length data = n).
Proof.
  unfold getData. destruct (channelContext e !! cid) as [ctx |]; [| discriminate].
  intros H. apply bind_Ok_inv in H as ([data buf] & Hread & H).
  assert (Hlen : forall bs, data = Some bs -> length bs = n).
  { intros bs ->. destruct (read n (buffer ctx)) as [[bs' b'] | ex] eqn:Hr.
    - injection Hread as <- _. now apply read_Ok_inv in Hr as (_ & _ & Hl & _).
    - destruct ex; discriminate. }
  cbn [buffer channel active lastHeader] in H.
  destruct (_ || _) in H.
  - unfold deactivateChannel in H. cbn [channelContext set_context] in H.
    rewrite lookup_insert_eq in H. cbn [bind] in H. injection H as <- <-.
    now repeat split.
  - injection H as <- <-. now repeat split.
Qed.

Lemma writeFrame_keeps (e e' : Encoder) :
  writeFrame e = Ok e' ->
  consumer e' = consumer e /\
  (ebuffer e' = ebuffer e \/
   exists data rel, 1 <= length data /\ ebuffer e' = write data (encodeHeader (ebuffer e) rel)).
Proof.
  unfold writeFrame. destruct (currentContext e) as [cid |].
  2:{ intros [= <-]. split; [reflexivity | now left]. }
  destruct (channelContext e !! cid) as [ctx |]; [| discriminate].
  intros H. apply bind_Ok_inv in H as (n & Hsize & H).
  apply bind_Ok_inv in H as ([data e1] & Hdata & H).
  apply getData_keeps in Hdata as (Hcons & Hbuf & Hlen).
  unfold getMinimumFrameSize in Hsize.
  destruct (Nat.ltb_spec (Nat.min (bodyRemaining (channel ctx)) (eframeSize e)) 1);
    [discriminate |]. injection Hsize as <-.
  destruct data as [data |].
  - destruct (channelContext e1 !! cid) as [ctx1 |]; [| discriminate].
    injection H as <-. cbn [consumer ebuffer set_ebuffer set_context].
    split; [exact Hcons |]. right. exists data, (getRelativeHeader ctx1).
    rewrite (Hlen data eq_refl), Hbuf. split; [lia | reflexivity].
  - injection H as <-. split; [exact Hcons | now left].
Qed.

(** A tick of the encoder that returns hands the consumer nothing or one
    string, never an empty one, and leaves the encoder's buffer empty if
    it was empty before. *)
Theorem encode_flushes (e e' : Encoder) :
  encode e = Ok e' ->
  (consumer e' = consumer e \/
   exists bs, bs <> [] /\ consumer e' = consumer e ++ [bs]) /\
  (len (ebuffer e) = 0 -> len (ebuffer e') = 0).
Proof.
  unfold encode. destruct (Scheduler_getNextChannel (scheduler e)) as [[cid |] s].
  2:{ intros [= <-]. split; [now left | trivial]. }
  cbn [set_scheduler channelContext].
  destruct (channelContext e !! cid) as [ctx |]; [| discriminate].
  intros H. apply bind_Ok_inv in H as (e1 & Hframe & H).
  apply writeFrame_keeps in Hframe as (Hcons & Hbuf).
  cbn [consumer ebuffer] in Hcons, Hbuf.
  destruct (Nat.ltb_spec 0 (len (ebuffer e1))) as [Hpos | Hzero]; injection H as <-;
    cbn [consumer ebuffer truncate0 empty getvalue].
  - split; [| reflexivity]. right. exists (bdata (ebuffer e1)).
    rewrite Hcons. split; [| reflexivity].
    unfold len in Hpos. destruct (bdata (ebuffer e1)); [cbn in Hpos; lia | discriminate].
  - split; [now left |]. lia.
Qed.

(** Bytes written to a context whose buffer is empty come back from
    [getData] when that many are asked for, the context being active and
    its buffer empty again; a further [getData] finds nothing and marks
    the context inactive. *)
Theorem write_then_getData
    (e : Encoder) (cid : Z) (ctx : ChannelContext) (data : list byte) (n : nat) :
  channelContext e !! cid = Some ctx ->
  buffer ctx = empty ->
  data <> [] ->
  1 <= n ->
  exists e1 e2 e3,
    ChannelContext_write cid data e = Ok e1 /\
    getData cid (length data) e1 = Ok (Some data, e2) /\
    channelContext e2 !! cid
    = Some (mkContext (channel ctx) empty true (lastHeader ctx)) /\
    getData cid n e2 = Ok (None, e3) /\
    channelContext e3 !! cid
    = Some (mkContext (channel ctx) empty false (lastHeader ctx)).
Proof.
  intros Hctx Hempty Hdata Hn.
  assert (Hlen : 1 <= length data) by (destruct data; [congruence | cbn; lia]).
  set (full := mkContext (channel ctx) (mkBuffer data 0) true (lastHeader ctx)).
  assert (Hwrite : exists e1, ChannelContext_write cid data e = Ok e1 /\
                              channelContext e1 !! cid = Some full).
  { unfold ChannelContext_write. rewrite Hctx, Hempty.
    cbn [active channel buffer lastHeader append bdata bpos empty app].
    destruct (active ctx) eqn:Hact; cbn [negb].
    - eexists. split; [reflexivity |]. cbn [channelContext set_context].
      now rewrite lookup_insert_eq.
    - unfold activateChannel. cbn [channelContext set_context].
      rewrite lookup_insert_eq. cbn [bind]. eexists. split; [reflexivity |].
      cbn [channelContext set_context set_scheduler]. now rewrite lookup_insert_eq. }
  destruct Hwrite as (e1 & Hw & H1).
  pose proof (getData_enough e1 cid full (length data) H1 Hlen) as Hget.
  unfold remaining in Hget. cbn [full buffer channel active lastHeader bdata bpos] in Hget.
  specialize (Hget ltac:(lia)).
  change (drop 0 data) with data in Hget. cbn [Nat.add] in Hget.
  rewrite firstn_all, skipn_all in Hget.
  eexists e1, _, _. split; [exact Hw |]. split; [exact Hget |].
  cbn [channelContext set_context]. split; [now rewrite lookup_insert_eq |].
  match goal with |- getData cid n ?e2 = _ /\ _ =>
    assert (H2 : channelContext e2 !! cid
                 = Some (mkContext (channel ctx) empty true (lastHeader ctx)))
      by (cbn [channelContext set_context]; now rewrite lookup_insert_eq);
    pose proof (getData_short e2 cid _ n H2) as Hshort
  end.
  unfold remaining in Hshort. cbn [buffer bdata bpos empty length] in Hshort.
  specialize (Hshort ltac:(lia)).
  split; [exact Hshort |].
  cbn [channelContext set_context set_scheduler]. now rewrite lookup_insert_eq.
Qed.

End EncoderTickFacts.

(** ** Named streams: subscribers *)

Section SubscriberFacts.
Import Stream.

Lemma subscribed_iff (s : Subscriber) (ss : SubscriberStream) :
  subscribed s ss = true <-> In (subscriberId s) (subscriberIds ss).
Proof.
  unfold subscribed, subscriberIds. rewrite existsb_exists, in_map_iff.
  split; intros (x & H1 & H2).
  - exists x. apply Nat.eqb_eq in H2. tauto.
  - exists x. split; [tauto |]. apply Nat.eqb_eq. tauto.
Qed.

Lemma remove_first_last (s : Subscriber) (l : list Subscriber) :
  ~ In (subscriberId s) (map subscriberId l) -> remove_first s (l ++ [s]) = l.
Proof.
  induction l as [| x l IH]; cbn [remove_first app map]; intros Hnot.
  - now rewrite Nat.eqb_refl.
  - destruct (Nat.eqb_spec (subscriberId x) (subscriberId s)) as [Heq | _].
    + exfalso. apply Hnot. now left.
    + rewrite IH; [reflexivity |]. intros Hin. apply Hnot. now right.
Qed.

(** A subscriber is added once: adding one whose identity is subscribed
    raises [ValueError]; a new one goes to the end of the list, and the
    identities stay distinct.  Removing it again gives the stream back as
    it was; removing a subscriber that is not subscribed raises
    [ValueError]. *)
Theorem subscribe_unsubscribe (s : Subscriber) (ss : SubscriberStream) :
  (In (subscriberId s) (subscriberIds ss) ->
   addSubscriber s ss = Raise ValueError) /\
  (~ In (subscriberId s) (subscriberIds ss) ->
   removeSubscriber s ss = Raise ValueError /\
   exists ss',
     addSubscriber s ss = Ok ss' /\
     subscribers ss' = subscribers ss ++ [s] /\
     (List.NoDup (subscriberIds ss) -> List.NoDup (subscriberIds ss')) /\
     removeSubscriber s ss' = Ok ss).
Proof.
  split.
  - intros Hin. apply subscribed_iff in Hin. unfold addSubscriber. now rewrite Hin.
  - intros Hnot.
    assert (Hsub : subscribed s ss = false).
    { destruct (subscribed s ss) eqn:E; [| reflexivity].
      apply subscribed_iff in E. contradiction. }
    unfold addSubscriber, removeSubscriber. rewrite Hsub. split; [reflexivity |].
    eexists. split; [reflexivity |]. cbn [subscribers]. split; [reflexivity |]. split.
    + unfold subscriberIds. cbn [subscribers]. rewrite map_app. cbn [map]. intros Hnd.
      apply NoDup_ListNoDup, NoDup_app. repeat split.
      * now apply NoDup_ListNoDup.
      * intros x Hx Hx'. apply list_elem_of_singleton in Hx'. subst x.
        apply Hnot. now apply list_elem_of_In.
      * apply NoDup_singleton.
    + assert (Hnow : subscribed s
                (mkSubscriberStream (subscribers ss ++ [s]) (publisher ss) (calls ss)) = true).
      { apply subscribed_iff. unfold subscriberIds. cbn [subscribers].
        rewrite map_app. apply in_or_app. right. now left. }
      rewrite Hnow. cbn [subscribers publisher calls].
      rewrite remove_first_last by exact Hnot. now destruct ss.
Qed.

Lemma remove_first_filter (s : Subscriber) (l : list Subscriber) :
  List.NoDup (map subscriberId l) ->
  map subscriberId (remove_first s l)
  = List.filter (fun i => negb (Nat.eqb i (subscriberId s))) (map subscriberId l).
Proof.
  induction l as [| x l IH]; cbn [remove_first map List.filter]; intros Hnd; [reflexivity |].
  inversion Hnd as [| ? ? Hx Hrest]; subst.
  destruct (Nat.eqb_spec (subscriberId x) (subscriberId s)) as [Heq | Hne]; cbn [negb].
  - symmetry. rewrite Heq in Hx. clear -Hx.
    induction (map subscriberId l) as [| i ids IHi]; cbn [List.filter]; [reflexivity |].
    destruct (Nat.eqb_spec i (subscriberId s)) as [-> | _]; cbn [negb].
    + exfalso. apply Hx. now left.
    + f_equal. apply IHi. intros Hin. apply Hx. now right.
  - cbn [map]. now rewrite IH.
Qed.

(** The calls that [_notify] adds go to subscribers of its list. *)
Lemma notify_each_calls (attr : string) (args : list arg) (c : Call) :
  forall (todo : list Subscriber) (acc : SubscriberStream),
    In c (calls (notify_each attr args todo acc).1) ->
    In c (calls acc) \/ In c.1.1 (map subscriberId todo).
Proof.
  induction todo as [| x todo IH]; intros acc Hc; cbn [notify_each] in Hc; [now left |].
  destruct (getattr x attr) as [m |]; [| now left].
  assert (Hstep : forall l, In c (calls acc ++ [call_of attr args x] ++ l) ->
                            In c (calls acc ++ l) \/ c.1.1 = subscriberId x).
  { intros l Hl. rewrite !in_app_iff in *. cbn [In] in Hl.
    destruct Hl as [Hl | [[<- | []] | Hl]]; [tauto | now right | tauto]. }
  destruct (m args).
  - cbn [fst calls] in Hc. specialize (Hstep []). rewrite !app_nil_r in Hstep.
    apply Hstep in Hc as [Hc | Hc]; [now left | right; left; now symmetry].
  - apply IH in Hc as [Hc | Hc]; [| right; now right].
    cbn [calls] in Hc. specialize (Hstep []). rewrite !app_nil_r in Hstep.
    apply Hstep in Hc as [Hc | Hc]; [now left | right; left; now symmetry].
Qed.

(** Removing a subscriber of a stream whose subscribers are distinct takes
    that subscriber out and keeps the others in their order; the
    publisher stays.  Data delivered afterwards does not reach it. *)
Theorem removeSubscriber_keeps_others (s : Subscriber) (ss : SubscriberStream) :
  In (subscriberId s) (subscriberIds ss) ->
  List.NoDup (subscriberIds ss) ->
  exists ss',
    removeSubscriber s ss = Ok ss' /\
    subscriberIds ss'
    = List.filter (fun i => negb (Nat.eqb i (subscriberId s))) (subscriberIds ss) /\
    ~ In (subscriberId s) (subscriberIds ss') /\
    publisher ss' = publisher ss /\
    forall (video : bool) (data : list byte) (time : Z) (c : Call),
      In c (calls ((if video then videoDataReceived else audioDataReceived)
                     data time ss').1) ->
      In c (calls ss) \/ c.1.1 <> subscriberId s.
Proof.
  intros Hin Hnd. apply subscribed_iff in Hin.
  unfold removeSubscriber. rewrite Hin. eexists. split; [reflexivity |].
  unfold subscriberIds. cbn [subscribers publisher].
  rewrite remove_first_filter by exact Hnd.
  assert (Hgone : ~ In (subscriberId s)
                    (List.filter (fun i => negb (Nat.eqb i (subscriberId s)))
                       (map subscriberId (subscribers ss)))).
  { intros H. apply filter_In in H as [_ H]. now rewrite Nat.eqb_refl in H. }
  repeat split; try assumption.
  intros video data time c Hc.
  rewrite <- remove_first_filter in Hgone by exact Hnd.
  destruct video; unfold videoDataReceived, audioDataReceived, _notify in Hc;
    cbn [subscribers] in Hc;
    apply notify_each_calls in Hc as [Hc | Hc]; try (now left);
    right; intros Heq; rewrite Heq in Hc; contradiction.
Qed.

End SubscriberFacts.

(** ** Streams: closing a stream *)

Section CloseFacts.
Import Stream.

Lemma removePublisher_accepted (c : Client) (ss : SubscriberStream) :
  Forall (accepts "streamUnpublished" []) (subscribers ss) ->
  removePublisher c ss
  = (mkSubscriberStream (subscribers ss) None
       (calls ss ++ map (call_of "streamUnpublished" []) (subscribers ss)), None).
Proof.
  intros Hall. unfold removePublisher, _notify. cbn [subscribers].
  now rewrite notify_each_accepted.
Qed.

Lemma removePublisher_clears (c : Client) (ss : SubscriberStream) :
  publisher (removePublisher c ss).1 = None.
Proof.
  unfold removePublisher, _notify. cbn [subscribers].
  now destruct (notify_each_keeps "streamUnpublished" [] (subscribers ss)
                  (mkSubscriberStream (subscribers ss) None (calls ss))).
Qed.

(** [closeStream] on a stream that is bound to a named stream, with its
    application and stream name set, subscribers that take the
    notification and an application hook that returns: the named stream
    has no publisher afterwards, whoever it was, and every subscriber has
    been told; the other named streams are untouched; the stream's
    timestamp is 0 and it is not published.  [sendStatus] then ends in
    [NameError], the module not binding the name [event]: the exception
    leaves [closeStream] and no NetStream.Unpublish.Success is handed to
    [writeEvent]. *)
Theorem closeStream_frees_stream
    (onUnpublish : string -> Client -> string * string -> option exn)
    (reg : Registry) (p : Protocol) (st : Stream)
    (key : string * string) (ss : SubscriberStream) (app name : string) :
  stream st = Some key ->
  reg !! key = Some ss ->
  Forall (accepts "streamUnpublished" []) (subscribers ss) ->
  application st = Some app ->
  streamName st = Some name ->
  onUnpublish app (client p) key = None ->
  let r := closeStream onUnpublish reg p st in
  closed_registry r !! key
  = Some (mkSubscriberStream (subscribers ss) None
            (calls ss ++ map (call_of "streamUnpublished" []) (subscribers ss))) /\
  (forall other, other <> key -> closed_registry r !! other = reg !! other) /\
  Stream.timestamp (closed_self r) = 0%Z /\
  published (closed_self r) = false /\
  closed_raised r = Some NameError /\
  closed_protocol r = p.
Proof.
  intros Hstream Hlook Hall Happ Hname Hhook r.
  assert (Hr : r = mkClosed
                 (<[key := mkSubscriberStream (subscribers ss) None
                             (calls ss ++ map (call_of "streamUnpublished" [])
                                            (subscribers ss))]> reg)
                 p
                 (mkStream (streamId st) 0 false (stream st) (streamName st)
                    (application st))
                 (Some NameError)).
  { subst r. unfold closeStream. rewrite Hstream, Hlook.
    rewrite removePublisher_accepted by exact Hall.
    cbn [application streamName]. rewrite Happ, Hhook, Hname.
    now rewrite sendStatus_unbound. }
  rewrite Hr. cbn [closed_raised closed_registry closed_self closed_protocol
                   Stream.timestamp published].
  split; [apply lookup_insert_eq |].
  split; [intros other Hne; now rewrite lookup_insert_ne by congruence |].
  now repeat split.
Qed.

(** [publish] binds the stream object to the named stream before it looks
    at the publisher, and [removePublisher] does not look at its argument.
    A publish on a named stream that has a publisher ends in [NameError]
    (no NetStream.Publish.BadName is handed to [writeEvent]) with the
    stream object bound to the named stream and the publisher in place;
    [closeStream] on that stream object then leaves the named stream
    without publisher, whoever the publisher was, and hands nothing to
    [writeEvent].  If the stream object never had a stream name, the
    subscribers take the notification and the application hook returns,
    [closeStream] ends in [AttributeError] on the missing [streamName]. *)
Theorem closeStream_after_refused_publish
    (onUnpublish : string -> Client -> string * string -> option exn)
    (env : Environment) (url app : string)
    (reg : Registry) (p : Protocol) (st : Stream) (q : Client) (ss : SubscriberStream) :
  let key := (app, urlparse_path env url) in
  reg !! key = Some ss ->
  publisher ss = Some q ->
  let r := publish env url app reg p st in
  let c := closeStream onUnpublish (registry r) (protocol r) (self r) in
  raised r = Some NameError /\
  protocol r = p /\
  stream (self r) = Some key /\
  publisher_of (registry r) key = Some q /\
  publisher_of (closed_registry c) key = None /\
  closed_protocol c = p /\
  (streamName st = None ->
   Forall (accepts "streamUnpublished" []) (subscribers ss) ->
   onUnpublish app (client p) key = None ->
   closed_raised c = Some AttributeError).
Proof.
  intros key Hlook Hpub r c.
  assert (Hr : publish env url app reg p st
               = mkPublished reg p
                   (mkStream (streamId st) (Stream.timestamp st) (published st) (Some key)
                      (streamName st) (Some app))
                   false (Some NameError)).
  { rewrite publish_outcome. unfold getStream. fold key.
    rewrite Hlook. cbn [fst snd]. now rewrite Hpub. }
  subst c r. rewrite Hr. clear Hr.
  cbn [raised protocol self registry stream].
  split; [reflexivity |]. split; [reflexivity |]. split; [reflexivity |].
  split; [unfold publisher_of; now rewrite Hlook |].
  unfold closeStream. cbn [stream]. rewrite Hlook.
  pose proof (removePublisher_clears (client p) ss) as Hclear.
  pose proof (removePublisher_accepted (client p) ss) as Hacc.
  destruct (removePublisher (client p) ss) as [ss' failed]. cbn [fst] in Hclear.
  assert (Hnone : forall reg', publisher_of (<[key := ss']> reg') key = None).
  { intros reg'. unfold publisher_of. now rewrite lookup_insert_eq. }
  assert (Hfailed : Forall (accepts "streamUnpublished" []) (subscribers ss) ->
                    failed = None).
  { intros Hall. specialize (Hacc Hall). now injection Hacc as _ ->. }
  destruct failed as [e |]; cbn [closed_registry closed_raised closed_protocol].
  - split; [apply Hnone |]. split; [reflexivity |].
    intros _ Hall _. specialize (Hfailed Hall). discriminate.
  - cbn [application streamName].
    destruct (onUnpublish app (client p) key) as [e |];
      cbn [closed_registry closed_raised closed_protocol].
    + split; [apply Hnone |]. split; [reflexivity |]. intros _ _ Hhook. discriminate.
    + destruct (streamName st) as [name |];
        rewrite ?sendStatus_unbound;
        cbn [closed_registry closed_raised closed_protocol].
      * split; [apply Hnone |]. split; [reflexivity |]. intros Hn. discriminate.
      * split; [apply Hnone |]. now split.
Qed.

(** [connectionLost] with a reason that is not a [ConnectionLost] changes
    nothing.  With a [ConnectionLost], on a stream object bound to a named
    stream, it takes the publisher off the named stream and hands nothing
    to [writeEvent]; if the callbacks of the subscribers return, all of
    them have been told and the stream is reset (timestamp 0, not
    published); if a callback raises, the exception leaves
    [connectionLost] and the stream is not reset. *)
Theorem connectionLost_by_reason
    (reg : Registry) (p : Protocol) (st : Stream)
    (key : string * string) (ss : SubscriberStream) :
  connectionLost false reg p st = mkClosed reg p st None /\
  (stream st = Some key ->
   reg !! key = Some ss ->
   let r := connectionLost true reg p st in
   publisher_of (closed_registry r) key = None /\
   closed_protocol r = p /\
   (Forall (accepts "streamUnpublished" []) (subscribers ss) ->
    r = mkClosed
          (<[key := mkSubscriberStream (subscribers ss) None
                      (calls ss ++ map (call_of "streamUnpublished" [])
                                     (subscribers ss))]> reg)
          p
          (mkStream (streamId st) 0 false (stream st) (streamName st) (application st))
          None) /\
   (forall (before after : list Subscriber) (s : Subscriber) (e : exn),
       subscribers ss = before ++ s :: after ->
       Forall (accepts "streamUnpublished" []) before ->
       raises "streamUnpublished" [] e s ->
       closed_raised r = Some e /\ closed_self r = st)).
Proof.
  split; [reflexivity |].
  intros Hstream Hlook r. subst r. unfold connectionLost. rewrite Hstream, Hlook.
  split; [| split; [| split]].
  - pose proof (removePublisher_clears (client p) ss) as Hclear.
    destruct (removePublisher (client p) ss) as [ss' [e |]]; cbn [fst] in Hclear;
      cbn [closed_registry]; unfold publisher_of; now rewrite lookup_insert_eq.
  - now destruct (removePublisher (client p) ss) as [ss' [e |]].
  - intros Hall. now rewrite removePublisher_accepted by exact Hall.
  - intros before after s e Hsubs Hbefore Hraise.
    assert (Hrun : (removePublisher (client p) ss).2 = Some e).
    { unfold removePublisher, _notify. cbn [subscribers]. rewrite Hsubs at 1.
      now rewrite (notify_each_raised _ _ e before after s Hbefore Hraise). }
    destruct (removePublisher (client p) ss) as [ss' failed]. cbn [snd] in Hrun.
    rewrite Hrun. split; reflexivity.
Qed.

(** [setPublisher] makes the client the publisher whatever publisher
    there was and even if a subscriber's callback raises; it tells the
    subscribers in insertion order, all of them while the callbacks
    return. *)
Theorem setPublisher_overwrites (c : Client) (ss : SubscriberStream) :
  publisher (setPublisher c ss).1 = Some c /\
  subscribers (setPublisher c ss).1 = subscribers ss /\
  (forall previous : option Client,
      setPublisher c (mkSubscriberStream (subscribers ss) previous (calls ss))
      = setPublisher c ss) /\
  (Forall (accepts "streamPublished" []) (subscribers ss) ->
   setPublisher c ss
   = (mkSubscriberStream (subscribers ss) (Some c)
        (calls ss ++ map (call_of "streamPublished" []) (subscribers ss)), None)).
Proof.
  unfold setPublisher, _notify. cbn [subscribers publisher calls].
  pose proof (notify_each_keeps "streamPublished" [] (subscribers ss)
                (mkSubscriberStream (subscribers ss) (Some c) (calls ss))) as [Hs Hp].
  repeat split; try assumption.
  intros Hall. now rewrite notify_each_accepted.
Qed.

End CloseFacts.

(** ** Streams: from a media body to the subscribers *)

Section DeliveryFacts.
Import Buffer Event Codec Stream.
Context {amf : AMFCodec}.

(** From the body of an audio or video message to the subscribers:
    [decode] gives an event that holds the body, the event dispatches to
    [onAudioData] or [onVideoData] of its listener with the body, and that
    method of a stream object bound to a named stream has every subscriber
    called, in insertion order, with the body and the timestamp of the
    stream object, the callbacks returning. *)
Theorem media_event_reaches_subscribers
    (video : bool) (body : list byte)
    (reg : Registry) (st : Stream)
    (key : string * string) (ss : SubscriberStream) :
  let attr := if video then "videoDataReceived" else "audioDataReceived" in
  let args := [Bytes body; Time (Stream.timestamp st)] in
  stream st = Some key ->
  reg !! key = Some ss ->
  Forall (accepts attr args) (subscribers ss) ->
  exists e,
    decode (if video then VIDEO_DATA else AUDIO_DATA) body = Ok e /\
    dispatch e = (if video then call_onVideoData (Some body)
                  else call_onAudioData (Some body)) /\
    (if video then onVideoData else onAudioData) body reg st
    = Ok (<[key := mkSubscriberStream (subscribers ss) (publisher ss)
                     (calls ss ++ map (call_of attr args) (subscribers ss))]> reg,
          None).
Proof.
  intros attr args Hstream Hlook Hall.
  destruct (decode_streaming_total body) as [Haudio Hvideo].
  destruct video; subst attr.
  - eexists. split; [exact Hvideo |]. split; [reflexivity |].
    unfold onVideoData. rewrite Hstream, Hlook.
    unfold videoDataReceived, _notify. fold args.
    now rewrite notify_each_accepted by exact Hall.
  - eexists. split; [exact Haudio |]. split; [reflexivity |].
    unfold onAudioData. rewrite Hstream, Hlook.
    unfold audioDataReceived, _notify. fold args.
    now rewrite notify_each_accepted by exact Hall.
Qed.

End DeliveryFacts.

(** ** Client handshake: data in pieces *)

Section HandshakePieces.
Import Buffer Client.
Local Open Scope nat_scope.

(** While the handshake is undecided (no byte yet, or a leading 0x03 and
    fewer than 1 + 1536 + 1536 bytes), the bytes stay buffered: receiving
    more data afterwards gives what receiving all the data at once would
    have given. *)
Theorem dataReceived_in_pieces (p : RTMPClientProtocol) (first second : list byte) :
  state p = HANDSHAKE ->
  let rx := bdata (buffer p) ++ first in
  (forall b, head rx = Some b -> b = x03) ->
  length rx < 1 + HANDSHAKE_LENGTH + HANDSHAKE_LENGTH ->
  exists p1,
    dataReceived first p = Ok p1 /\
    dispatched p1 = dispatched p /\
    transport p1 = transport p /\
    dataReceived second p1 = dataReceived (first ++ second) p.
Proof.
  intros Hst rx Hhead Hlen.
  assert (Hnext : forall b1 : BufferedByteStream,
             bdata b1 = rx ->
             dataReceived second (set_buffer b1 (set_buffer (mkBuffer rx 0) p))
             = dataReceived (first ++ second) p).
  { intros [d pos] Hd. cbn [bdata] in Hd. subst d.
    unfold dataReceived. rewrite !write_at_tail. cbn [buffer set_buffer bdata].
    subst rx. now rewrite <- app_assoc. }
  unfold dataReceived at 1. rewrite write_at_tail. fold rx.
  change (state (set_buffer (mkBuffer rx 0) p)) with (state p). rewrite Hst.
  rewrite (decodeHandshake_at_start _ rx) by reflexivity.
  destruct rx as [| b rest] eqn:Erx.
  - eexists. split; [reflexivity |]. repeat split.
    rewrite <- (Hnext (mkBuffer [] 0) eq_refl). reflexivity.
  - assert (b = x03) as -> by (apply Hhead; reflexivity).
    rewrite bool_decide_eq_true_2 by reflexivity. cbv zeta.
    destruct (Nat.ltb_spec (length (x03 :: rest)) (HANDSHAKE_LENGTH * 2 + 1)) as [_ | Hge];
      [| lia].
    eexists. split; [reflexivity |]. repeat split.
    now rewrite <- (Hnext (mkBuffer (x03 :: rest) 1) eq_refl).
Qed.

End HandshakePieces.

(** ** Runs of the further properties *)

Section MoreRuns.
Import Buffer Client Event Codec Stream.

Lemma quiet_accepts (attr : string) (args : list arg) (id : nat) :
  accepts attr args (quiet id).
Proof. eexists. split; reflexivity. Qed.

(** A frame size body of three bytes is a short read, one of five bytes
    has trailing data, and one of four bytes is taken. *)
Lemma decode_fixed_size_witness :
  (exists e, decode (amf := byte_codec) FRAME_SIZE [x00; x00; x10] = Raise e /\
             short_read e = true) /\
  decode (amf := byte_codec) FRAME_SIZE [x00; x00; x10; x00; x00] = Raise TrailingDataError /\
  exists e, decode (amf := byte_codec) FRAME_SIZE [x00; x00; x10; x00] = Ok e /\
            class_of e = FrameSize_class.
Proof.
  split; [| split].
  - apply (decode_fixed_size (amf := byte_codec) FRAME_SIZE FrameSize_class 4
             [x00; x00; x10] eq_refl eq_refl). cbn. lia.
  - apply (decode_fixed_size (amf := byte_codec) FRAME_SIZE FrameSize_class 4
             [x00; x00; x10; x00; x00] eq_refl eq_refl). cbn. lia.
  - apply (decode_fixed_size (amf := byte_codec) FRAME_SIZE FrameSize_class 4
             [x00; x00; x10; x00] eq_refl eq_refl). reflexivity.
Defined.

(** The frame size 4096 is encoded, so it is in the encodable domain. *)
Lemma encode_Ok_in_domain_witness :
  Event.encode (amf := byte_codec) (FrameSize (Some 4096)) = Ok (FRAME_SIZE, [x00; x00; x10; x00]) /\
  in_domain (amf := byte_codec) (FrameSize (Some 4096)) /\
  get_type_class FRAME_SIZE = Ok FrameSize_class.
Proof.
  split; [reflexivity |].
  apply (encode_Ok_in_domain (amf := byte_codec) (FrameSize (Some 4096)) FRAME_SIZE
           [x00; x00; x10; x00] eq_refl).
Defined.

(** A ping body of 14 bytes is decoded, and the decoded event is encoded
    to the same 14 bytes. *)
Lemma encode_decode_body_witness :
  let body := [x00; x06; x00; x00; x04; xd2; xff; xff; xff; xff; xff; xff; xff; xff] in
  let ping := ControlEvent (amf := byte_codec) (Some 6) (Some 1234) (Some (-1)) (Some (-1)) in
  decode CONTROL body = Ok ping /\ Event.encode ping = Ok (CONTROL, body).
Proof.
  intros body ping. split; [reflexivity |].
  apply (encode_decode_body CONTROL body ping); reflexivity.
Defined.

(** The decoder of the frame-boundary run: its [readFrame] returns and
    takes at most 128 bytes. *)
Lemma readFrame_on_pin_witness :
  let c0 := mkChannel (mkHeader 3 0 300 8 1) (repeat x01 100) 200 0 [] in
  let d0 := mkDecoder (of_bytes (repeat x01 150)) (Some 3) {[ 3 := c0 ]} 128 true in
  exists d', readFrame d0 = Ok d' /\ (drained d0 d' <= 128)%nat /\
             bdata (dbuffer d') = repeat x01 150.
Proof.
  intros c0 d0.
  destruct (readFrame_on_pin d0 3 c0 eq_refl ltac:(vm_compute; reflexivity))
    as (d' & Hrun & _ & _ & Hsize & Hdata & _).
  exists d'. split; [exact Hrun |]. split; [exact Hsize | exact Hdata].
Defined.

(** One byte of a two-byte header: the tick pauses and keeps the byte. *)
Lemma decode_without_progress_witness :
  let d := mkDecoder (mkBuffer [x03] 0) None ∅ 128 true in
  Decoder_decode (env := plain_decoder_env) d
  = Ok (mkDecoder (mkBuffer [x03] 0) None ∅ 128 false) /\
  Decoder_decode (env := plain_decoder_env) (mkDecoder empty None ∅ 128 true)
  = Ok (mkDecoder empty None ∅ 128 false).
Proof.
  intros d. split.
  - apply (proj2 (decode_without_progress (env := plain_decoder_env) d));
      [reflexivity | cbn; lia | reflexivity].
  - apply (proj1 (decode_without_progress (env := plain_decoder_env)
                    (mkDecoder empty None ∅ 128 true))). reflexivity.
Defined.

(** A header for channel 3 with a body of 4 bytes, the body and one byte
    more: the tick takes the header and the body and leaves the byte. *)
Lemma decode_header_and_frame_witness :
  let d := mkDecoder (mkBuffer [x03; x04; x0a; x0b; x0c; x0d; x05] 0) None ∅ 128 true in
  exists d' c,
    Decoder_decode (env := plain_decoder_env) d = Ok d' /\
    dbuffer d' = mkBuffer [x05] 0 /\
    dchannels d' !! 3 = Some c /\
    delivered c = [[x0a; x0b; x0c; x0d]].
Proof.
  intros d.
  destruct (decode_header_and_frame (env := plain_decoder_env) d
              (mkHeader 3 0 4 8 1) 2 eq_refl ltac:(cbn; lia) eq_refl ltac:(cbn; lia))
    as (d' & Hrun & Hbuf & Hch & _).
  eexists d', _. split; [exact Hrun |]. split; [exact Hbuf |]. split; [exact Hch |].
  reflexivity.
Defined.

(** Channel 3 has 200 bytes buffered for a body of 200 bytes and a frame
    size of 128: the tick writes the header byte and 128 bytes and keeps 72
    bytes in the context. *)
Lemma encode_writes_frame_witness :
  let ctx := mkContext (mkChannel (mkHeader 3 0 200 8 1) [] 200 0 [])
               (of_bytes (repeat x01 200)) true None in
  let e := mkEncoder {[ 3 := ctx ]} None empty (mkScheduler [3]) [] 128 true in
  exists e',
    Codec.encode (hc := plain_header_codec) e = Ok e' /\
    consumer e' = [x03 :: repeat x01 128] /\
    ebuffer e' = empty /\
    channelContext e' !! 3
    = Some (mkContext (mkChannel (mkHeader 3 0 200 8 1) [] 200 0 [])
              (of_bytes (repeat x01 72)) true (Some (mkHeader 3 0 200 8 1))).
Proof.
  intros ctx e.
  destruct (encode_writes_frame (hc := plain_header_codec) e 3 (mkScheduler [3]) ctx
              eq_refl ltac:(vm_compute; reflexivity) ltac:(vm_compute; lia)
              ltac:(vm_compute; lia))
    as (e' & Hrun & Hcons & _ & _ & Hbuf & Hctx & _).
  exists e'. split; [exact Hrun |]. split; [exact Hcons |]. split; [exact Hbuf |].
  exact Hctx.
Defined.

(** The tick of the deferral run writes nothing and leaves the encoder's
    buffer empty. *)
Lemma encode_flushes_witness :
  let ctx := mkContext (mkChannel (mkHeader 3 0 200 8 1) [] 200 0 [])
               (of_bytes (repeat x01 10)) true None in
  let e := mkEncoder {[ 3 := ctx ]} None empty (mkScheduler [3]) [] 128 true in
  exists e',
    Codec.encode (hc := plain_header_codec) e = Ok e' /\
    len (ebuffer e') = 0%nat /\
    consumer e' = [].
Proof.
  intros ctx e.
  assert (Hrun : exists e', Codec.encode (hc := plain_header_codec) e = Ok e' /\
                            consumer e' = [])
    by (eexists; split; vm_compute; reflexivity).
  destruct Hrun as (e' & Hrun & Hcons).
  exists e'. split; [exact Hrun |]. split; [| exact Hcons].
  apply (proj2 (encode_flushes (hc := plain_header_codec) e e' Hrun)). reflexivity.
Defined.

(** Three bytes written to the empty context of channel 3 come back. *)
Lemma write_then_getData_witness :
  let ctx := mkContext (mkChannel (mkHeader 3 0 200 8 1) [] 200 0 []) empty false None in
  let e := mkEncoder {[ 3 := ctx ]} None empty (mkScheduler []) [] 128 true in
  exists e1 e2,
    ChannelContext_write 3 [x0a; x0b; x0c] e = Ok e1 /\
    getData 3 3 e1 = Ok (Some [x0a; x0b; x0c], e2) /\
    active <$> channelContext e2 !! 3 = Some true.
Proof.
  intros ctx e.
  destruct (write_then_getData e 3 ctx [x0a; x0b; x0c] 1
              ltac:(vm_compute; reflexivity) eq_refl ltac:(discriminate) ltac:(lia))
    as (e1 & e2 & _ & Hw & Hg & Hctx & _).
  exists e1, e2. split; [exact Hw |]. split; [exact Hg |]. now rewrite Hctx.
Defined.

(** A third subscriber joins [listeners] and leaves again; subscriber 3,
    who is subscribed, cannot join a second time. *)
Lemma subscribe_unsubscribe_witness :
  addSubscriber (quiet 3) listeners = Raise ValueError /\
  exists ss',
    addSubscriber (quiet 5) listeners = Ok ss' /\
    subscriberIds ss' = [1; 3; 5]%nat /\
    removeSubscriber (quiet 5) ss' = Ok listeners.
Proof.
  split.
  - apply (proj1 (subscribe_unsubscribe (quiet 3) listeners)). cbn. tauto.
  - destruct (proj2 (subscribe_unsubscribe (quiet 5) listeners)) as (_ & ss' & Ha & Hs & _ & Hr).
    + cbn. intros [H | [H | []]]; discriminate.
    + exists ss'. split; [exact Ha |]. split; [| exact Hr].
      unfold subscriberIds. rewrite Hs. reflexivity.
Defined.

(** Subscriber 1 leaves [listeners]; subscriber 3 stays. *)
Lemma removeSubscriber_keeps_others_witness :
  exists ss',
    removeSubscriber (quiet 1) listeners = Ok ss' /\
    subscriberIds ss' = [3%nat] /\
    publisher ss' = Some 7%nat.
Proof.
  destruct (removeSubscriber_keeps_others (quiet 1) listeners) as (ss' & Hr & Hids & _ & Hp & _).
  - cbn. tauto.
  - repeat constructor; cbn; intuition discriminate.
  - exists ss'. split; [exact Hr |]. split; [exact Hids | exact Hp].
Defined.

(** Client 7 closes its stream on "live": the named stream has no
    publisher afterwards and the stream is reset, and [NameError] leaves
    [closeStream] with nothing written. *)
Lemma closeStream_frees_stream_witness :
  let key := ("app", "live") in
  let reg : Registry := {[ key := listeners ]} in
  let st := mkStream 1 40 true (Some key) (Some "live") (Some "app") in
  let r := closeStream (fun _ _ _ => None) reg (mkProtocol 7%nat [] false [] 0) st in
  publisher_of (closed_registry r) key = None /\
  Stream.timestamp (closed_self r) = 0 /\
  closed_raised r = Some NameError /\
  written (closed_protocol r) = [].
Proof.
  intros key reg st r.
  destruct (closeStream_frees_stream (fun _ _ _ => None) reg (mkProtocol 7%nat [] false [] 0)
              st key listeners "app" "live")
    as (Hreg & _ & Htime & _ & Hraised & Hprot).
  - reflexivity.
  - vm_compute. reflexivity.
  - repeat constructor; apply quiet_accepts.
  - reflexivity.
  - reflexivity.
  - reflexivity.
  - split; [| split; [exact Htime | split; [exact Hraised |]]].
    + unfold publisher_of. subst r. now rewrite Hreg.
    + subst r. now rewrite Hprot.
Defined.

(** Client 8 publishes "live", which client 7 publishes, and closes its
    stream: the publish ends in [NameError], the named stream has lost
    its publisher after [closeStream], and [closeStream] has raised
    [AttributeError]. *)
Lemma closeStream_after_refused_publish_witness :
  let key := ("app", "live") in
  let reg : Registry := {[ key := listeners ]} in
  let env := mkEnvironment (fun url => url) (fun _ _ _ => hook_other) in
  let r := publish env "live" "app" reg (mkProtocol 8%nat [] false [] 0)
             (mkStream 1 0 false None None None) in
  let c := closeStream (fun _ _ _ => None) (registry r) (protocol r) (self r) in
  raised r = Some NameError /\
  publisher_of (registry r) key = Some 7%nat /\
  publisher_of (closed_registry c) key = None /\
  closed_raised c = Some AttributeError.
Proof.
  intros key reg env r c.
  destruct (closeStream_after_refused_publish (fun _ _ _ => None) env "live" "app" reg
              (mkProtocol 8%nat [] false [] 0) (mkStream 1 0 false None None None)
              7%nat listeners)
    as (Hraised & _ & _ & Hkept & Hgone & _ & Hattr).
  - vm_compute. reflexivity.
  - reflexivity.
  - split; [exact Hraised |]. split; [exact Hkept |]. split; [exact Hgone |].
    apply Hattr; [reflexivity | | reflexivity].
    repeat constructor; apply quiet_accepts.
Defined.

(** The connection of client 7 is lost: the named stream loses its
    publisher and the stream is reset.  A connection that is closed
    cleanly leaves the publisher.  On [hecklers], whose second subscriber
    raises, the publisher is taken off and the stream is not reset. *)
Lemma connectionLost_by_reason_witness :
  let key := ("app", "live") in
  let st := mkStream 1 40 true (Some key) (Some "live") (Some "app") in
  let p := mkProtocol 7%nat [] false [] 0 in
  publisher_of (closed_registry (connectionLost true {[ key := listeners ]} p st)) key = None /\
  Stream.timestamp (closed_self (connectionLost true {[ key := listeners ]} p st)) = 0 /\
  publisher_of (closed_registry (connectionLost false {[ key := listeners ]} p st)) key
  = Some 7%nat /\
  publisher_of (closed_registry (connectionLost true {[ key := hecklers ]} p st)) key = None /\
  closed_raised (connectionLost true {[ key := hecklers ]} p st) = Some RuntimeError /\
  closed_self (connectionLost true {[ key := hecklers ]} p st) = st.
Proof.
  intros key st p.
  destruct (connectionLost_by_reason {[ key := listeners ]} p st key listeners)
    as [Hdone Hlost].
  destruct (Hlost eq_refl ltac:(vm_compute; reflexivity)) as (Hgone & _ & Hall & _).
  destruct (connectionLost_by_reason {[ key := hecklers ]} p st key hecklers)
    as [_ Hcut].
  destruct (Hcut eq_refl ltac:(vm_compute; reflexivity)) as (Hgone' & _ & _ & Hraise).
  destruct (Hraise [quiet 1] [quiet 3] (grumpy 2) RuntimeError) as [He Hst].
  - reflexivity.
  - repeat constructor; apply quiet_accepts.
  - eexists. split; reflexivity.
  - split; [exact Hgone |]. split.
    { rewrite Hall by (repeat constructor; apply quiet_accepts). reflexivity. }
    split; [rewrite Hdone; vm_compute; reflexivity |].
    split; [exact Hgone' |]. split; [exact He | exact Hst].
Defined.

(** Client 9 is made the publisher of [listeners], which client 7
    publishes. *)
Lemma setPublisher_overwrites_witness :
  setPublisher 9%nat listeners
  = (mkSubscriberStream [quiet 1; quiet 3] (Some 9%nat)
       [ (1%nat, "streamPublished", []); (3%nat, "streamPublished", []) ], None).
Proof.
  destruct (setPublisher_overwrites 9%nat listeners) as (_ & _ & _ & Hall).
  apply Hall. repeat constructor; apply quiet_accepts.
Defined.

(** A video body of two bytes and a stream object at timestamp 12: both
    subscribers get the bytes with timestamp 12. *)
Lemma media_event_reaches_subscribers_witness :
  let key := ("app", "live") in
  let reg : Registry := {[ key := listeners ]} in
  let st := mkStream 1 12 true (Some key) (Some "live") (Some "app") in
  exists e reg',
    decode (amf := byte_codec) VIDEO_DATA [x0a; x0b] = Ok e /\
    dispatch e = call_onVideoData (Some [x0a; x0b]) /\
    onVideoData [x0a; x0b] reg st = Ok (reg', None) /\
    calls <$> reg' !! key
    = Some [ (1%nat, "videoDataReceived", [Bytes [x0a; x0b]; Time 12]);
             (3%nat, "videoDataReceived", [Bytes [x0a; x0b]; Time 12]) ].
Proof.
  intros key reg st.
  destruct (media_event_reaches_subscribers (amf := byte_codec) true [x0a; x0b] reg st
              key listeners)
    as (e & Hdec & Hdisp & Hdeliver).
  - reflexivity.
  - vm_compute. reflexivity.
  - repeat constructor; apply quiet_accepts.
  - eexists e, _. split; [exact Hdec |]. split; [exact Hdisp |].
    split; [exact Hdeliver |].
    rewrite lookup_insert_eq. reflexivity.
Defined.

(** The peer's answer arrives in two packets, cut inside the first block:
    the handshake succeeds as with one packet. *)
Lemma dataReceived_in_pieces_witness :
  let p0 := connectionMade (repeat x00 1536) in
  let first := x03 :: repeat x07 1000 in
  let second := repeat x07 536 ++ repeat x00 1536 in
  exists p1 p2,
    dataReceived first p0 = Ok p1 /\
    dispatched p1 = [] /\
    dataReceived second p1 = Ok p2 /\
    dispatched p2 = [HANDSHAKE_SUCCESS].
Proof.
  intros p0 first second.
  destruct (dataReceived_in_pieces p0 first second eq_refl)
    as (p1 & H1 & Hd & _ & H2).
  - intros b Hb. vm_compute in Hb. now injection Hb as <-.
  - apply Nat.ltb_lt. vm_compute. reflexivity.
  - assert (Hall : exists p2, dataReceived (first ++ second) p0 = Ok p2 /\
                              dispatched p2 = [HANDSHAKE_SUCCESS])
      by (eexists; split; vm_compute; reflexivity).
    destruct Hall as (p2 & Hrun & Hdone).
    exists p1, p2. split; [exact H1 |]. split; [exact Hd |].
    split; [now rewrite H2 | exact Hdone].
Defined.

End MoreRuns.

(** ** Streams: the unbound name [event] *)

Section UnboundFacts.
Import Buffer Event Codec Stream.

(** [publish] on a named stream without publisher, whatever the
    application hook answers: no exception leaves [publish], the deferred
    that it returns never fires, nothing is handed to [writeEvent], the
    stream is not marked as published, and the named stream, created if
    it was not there, has no publisher.  The stream object is left bound
    to the named stream, with its application and stream name set. *)
Theorem publish_never_completes (env : Environment) (url app : string)
    (reg : Registry) (p : Protocol) (st : Stream) :
  let name := urlparse_path env url in
  let key := (app, name) in
  let r := publish env url app reg p st in
  publisher_of reg key = None ->
  raised r = None /\
  fired r = false /\
  protocol r = p /\
  self r = mkStream (streamId st) (Stream.timestamp st) (published st)
             (Some key) (Some name) (Some app) /\
  (exists ss, registry r !! key = Some ss /\ publisher ss = None) /\
  (forall other, other <> key -> registry r !! other = reg !! other).
Proof.
  intros name key r Hfree. subst r. rewrite publish_outcome. fold name key.
  destruct (getStream_spec app name reg) as (Hpub & Hlook & _ & _).
  fold key in Hpub, Hlook. rewrite Hfree in Hpub. rewrite Hpub.
  cbn [raised fired protocol self registry].
  split; [reflexivity |]. split; [reflexivity |]. split; [reflexivity |].
  split; [reflexivity |]. split; [eauto |].
  intros other Hne. unfold getStream. fold key.
  destruct (reg !! key); cbn [snd]; [reflexivity |].
  now rewrite lookup_insert_ne by congruence.
Qed.

Context {amf : AMFCodec}.

(** The methods of [BaseStream] that use the name [event] end in
    [NameError]: [eventReceived] for every header and body, after it has
    moved the timestamp by that of the header, so that no message is
    decoded, dispatched or handed to [logAndDisconnect]; [sendStatus] and
    [writeEvent] before anything is handed to [writePacket]. *)
Theorem eventReceived_raises_NameError :
  (forall (h : Header) (body : list byte) (st : Stream) (p : Protocol),
      eventReceived h body st p
      = (setTimestamp (Codec.timestamp h) true st, p, Raised NameError)) /\
  (forall (code : string) (st : Stream) (p : Protocol),
      sendStatus code st p = Raise NameError) /\
  (forall (e : OutEvent) (channelId sid time : Z) (p : Protocol),
      writeEvent e channelId sid time p = Raise NameError).
Proof.
  split; [| split].
  - intros h body st p. reflexivity.
  - exact sendStatus_unbound.
  - exact writeEvent_unbound.
Qed.

End UnboundFacts.

Section UnboundRuns.
Import Buffer Event Codec Stream.

(** The application accepts client 8 on the free stream "live": nothing
    is written, the deferred does not fire and "live" has no publisher. *)
Lemma publish_never_completes_witness :
  let env := mkEnvironment (fun url => url) (fun _ _ _ => hook_other) in
  let r := publish env "live" "app" ∅ (mkProtocol 8%nat [] false [] 0)
             (mkStream 1 0 false None None None) in
  raised r = None /\
  fired r = false /\
  written (protocol r) = [] /\
  publisher_of (registry r) ("app", "live") = None /\
  streamName (self r) = Some "live".
Proof.
  intros env r.
  destruct (publish_never_completes env "live" "app" ∅ (mkProtocol 8%nat [] false [] 0)
              (mkStream 1 0 false None None None))
    as (Hraised & Hfired & Hprot & Hself & (ss & Hlook & Hpub) & _).
  - vm_compute. reflexivity.
  - subst env. cbn [urlparse_path] in Hlook, Hself.
    split; [exact Hraised |]. split; [exact Hfired |].
    split; [subst r; now rewrite Hprot |].
    split; [unfold publisher_of; subst r; now rewrite Hlook |].
    subst r. now rewrite Hself.
Defined.

End UnboundRuns.
